(** * Orbit Vulkan layer: timestamp slot pool and GPU submission tracker

    A shallow embedding of [TimerQueryPool] (TimerQueryPool.h) and of
    [SubmissionTracker] (the class of CommandBufferManager.h), followed by
    the properties of the two classes that the specification of the
    submission tracker relies on.

    Conventions of the embedding
    - Vulkan handles ([VkDevice], [VkCommandBuffer], ...) are opaque pointers
      in the source; they are numbers here, [VK_NULL_HANDLE] being [0].
    - [uint32_t] and [size_t] values are [N]; the two places where the source
      increments a [uint32_t] counter write the wrap-around out.
    - [absl::flat_hash_map] is [gmap], [absl::flat_hash_set] is [gset],
      [std::vector] is [list] (front first, [back()] is the last element) and
      [std::stack] is a [list] whose head is [top()].
    - A failed [CHECK], a throwing [.at()] or [.value()], and an access that
      the C++ standard leaves undefined all end the call; a hook therefore
      returns a [result].
    - The mutexes are not modelled: every hook runs to completion on the
      state it is given. *)

From stdpp Require Import gmap list strings.
From Stdlib Require Import NArith ZArith QArith Lia.

Local Open Scope N_scope.

(** ** Outcome of a call *)

Inductive failure : Set :=
| CheckFailed          (* CHECK(cond) with cond false: the process aborts *)
| OutOfRange           (* flat_hash_map::at / vector::at on a missing key *)
| BadOptionalAccess    (* std::optional::value() on an empty optional *)
| UndefinedBehaviour.  (* top()/pop() of an empty std::stack, vector[] past the end *)

Inductive result (A : Type) : Type :=
| Ok (a : A)
| Fail (f : failure).
Arguments Ok {A} a.
Arguments Fail {A} f.

#[global] Instance result_ret : MRet result := fun A a => Ok a.
#[global] Instance result_bind : MBind result := fun A B k r =>
  match r with
  | Ok a => k a
  | Fail f => Fail f
  end.

#[global] Instance result_fmap : FMap result := fun A B f r =>
  match r with
  | Ok a => Ok (f a)
  | Fail e => Fail e
  end.

Definition CHECK (cond : bool) : result unit :=
  if cond then Ok tt else Fail CheckFailed.

(* m.at(k) of a hash map *)
Definition map_at `{Countable K} {V : Type} (m : gmap K V) (k : K) : result V :=
  match m !! k with
  | Some v => Ok v
  | None => Fail OutOfRange
  end.

(* m.contains(k) *)
Definition contains `{Countable K} {V : Type} (m : gmap K V) (k : K) : bool :=
  bool_decide (is_Some (m !! k)).

(* o.value() of an optional *)
Definition value {A : Type} (o : option A) : result A :=
  match o with
  | Some a => Ok a
  | None => Fail BadOptionalAccess
  end.

Definition has_value {A : Type} (o : option A) : bool :=
  match o with
  | Some _ => true
  | None => false
  end.

(* v.back() together with v.pop_back(): the vector without its last element
   and that element; [None] on the empty vector. *)
Fixpoint pop_back {A : Type} (v : list A) : option (list A * A) :=
  match v with
  | [] => None
  | x :: v' =>
      match pop_back v' with
      | None => Some ([], x)
      | Some (init, l) => Some (x :: init, l)
      end
  end.

Definition back {A : Type} (v : list A) : option A := snd <$> pop_back v.

Definition uint32_incr (n : N) : N := (n + 1) mod 4294967296.

(** ** Handles and driver-side values *)

Abbreviation VkDevice := N.
Abbreviation VkQueryPool := N.
Abbreviation VkCommandPool := N.
Abbreviation VkCommandBuffer := N.
Abbreviation VkQueue := N.
Definition VK_NULL_HANDLE : N := 0.

Inductive VkResult : Set :=
| VK_SUCCESS
| VK_NOT_READY
| VK_ERROR_DEVICE_LOST.   (* stands for every other error code *)

Definition VkResult_is_success (r : VkResult) : bool :=
  match r with
  | VK_SUCCESS => true
  | _ => false
  end.

Inductive VkPipelineStageFlagBits : Set :=
| VK_PIPELINE_STAGE_TOP_OF_PIPE_BIT
| VK_PIPELINE_STAGE_BOTTOM_OF_PIPE_BIT.

(** ** TimerQueryPool *)

Module TimerQueryPool.

Inductive SlotState : Set :=
| kReadyForQueryIssue
| kQueryPendingOnGpu.

#[global] Instance SlotState_eq_dec : EqDecision SlotState.
Proof. solve_decision. Defined.

(* The calls the pool makes through its dispatch table, oldest first. *)
Inductive DriverCall : Set :=
| CreateQueryPool (device : VkDevice) (queryCount : N)
| ResetQueryPoolEXT (device : VkDevice) (query_pool : VkQueryPool)
                    (firstQuery queryCount : N)
| DestroyQueryPool (device : VkDevice) (query_pool : VkQueryPool).

Record t : Type := mk {
  num_timer_query_slots_ : N;
  device_to_query_pool_ : gmap N N;
  device_to_query_slots_ : gmap N (list SlotState);
  device_to_free_slots_ : gmap N (list N);
  driver_calls : list DriverCall
}.

Definition set_slots (device : VkDevice) (slots : list SlotState)
    (free_slots : list N) (p : t) : t :=
  mk (num_timer_query_slots_ p) (device_to_query_pool_ p)
     (<[device := slots]> (device_to_query_slots_ p))
     (<[device := free_slots]> (device_to_free_slots_ p))
     (driver_calls p).

Definition call (c : DriverCall) (p : t) : t :=
  mk (num_timer_query_slots_ p) (device_to_query_pool_ p)
     (device_to_query_slots_ p) (device_to_free_slots_ p)
     (driver_calls p ++ [c]).

Definition new (num_timer_query_slots : N) : t :=
  mk num_timer_query_slots ∅ ∅ ∅ [].

(* std::iota(free_slots.begin(), free_slots.end(), 0) on a vector of n elements *)
Definition iota (n : N) : list N := N.of_nat <$> seq 0 (N.to_nat n).

(* [created] is what the driver's vkCreateQueryPool answers: its result
   code and the handle it wrote. *)
Definition InitializeTimerQueryPool (device : VkDevice)
    (created : VkResult * VkQueryPool) (p : t) : result t :=
  let '(res, query_pool) := created in
  let p := call (CreateQueryPool device (num_timer_query_slots_ p)) p in
  _ ← CHECK (VkResult_is_success res);
  let p := call (ResetQueryPoolEXT device query_pool 0 (num_timer_query_slots_ p)) p in
  _ ← CHECK (negb (contains (device_to_query_pool_ p) device));
  let slots := replicate (N.to_nat (num_timer_query_slots_ p)) kReadyForQueryIssue in
  let free_slots := iota (num_timer_query_slots_ p) in
  Ok (mk (num_timer_query_slots_ p)
         (<[device := query_pool]> (device_to_query_pool_ p))
         (<[device := slots]> (device_to_query_slots_ p))
         (<[device := free_slots]> (device_to_free_slots_ p))
         (driver_calls p)).

Definition DestroyTimerQueryPool (device : VkDevice) (p : t) : result t :=
  _ ← CHECK (contains (device_to_query_pool_ p) device);
  query_pool ← map_at (device_to_query_pool_ p) device;
  Ok (mk (num_timer_query_slots_ p)
         (delete device (device_to_query_pool_ p))
         (delete device (device_to_query_slots_ p))
         (delete device (device_to_free_slots_ p))
         (driver_calls p ++ [DestroyQueryPool device query_pool])).

Definition GetQueryPool (device : VkDevice) (p : t) : result VkQueryPool :=
  _ ← CHECK (contains (device_to_query_pool_ p) device);
  map_at (device_to_query_pool_ p) device.

(* The [bool] of the source and the index written through
   [allocated_index] are one [option]: [None] is [false]. *)
Definition NextReadyQuerySlot (device : VkDevice) (p : t)
    : result (option N * t) :=
  _ ← CHECK (contains (device_to_free_slots_ p) device);
  _ ← CHECK (contains (device_to_query_slots_ p) device);
  free_slots ← map_at (device_to_free_slots_ p) device;
  match pop_back free_slots with
  | None => Ok (None, p)
  | Some (free_slots, allocated_index) =>
      slots ← map_at (device_to_query_slots_ p) device;
      match slots !! N.to_nat allocated_index with
      | None => Fail UndefinedBehaviour
      | Some state =>
          _ ← CHECK (bool_decide (state = kReadyForQueryIssue));
          Ok (Some allocated_index,
              set_slots device
                (<[N.to_nat allocated_index := kQueryPendingOnGpu]> slots)
                free_slots p)
      end
  end.

(* One iteration of the loop of ResetQuerySlotsInternal. *)
Definition reset_one (device : VkDevice) (rollback_only : bool)
    (slot_index : N) (p : t) : result t :=
  slot_states ← map_at (device_to_query_slots_ p) device;
  free_slots ← map_at (device_to_free_slots_ p) device;
  _ ← CHECK (bool_decide (slot_index < num_timer_query_slots_ p));
  current_state ← match slot_states !! N.to_nat slot_index with
                  | Some s => Ok s
                  | None => Fail OutOfRange
                  end;
  _ ← CHECK (bool_decide (current_state = kQueryPendingOnGpu));
  let p := set_slots device
             (<[N.to_nat slot_index := kReadyForQueryIssue]> slot_states)
             (free_slots ++ [slot_index]) p in
  if rollback_only then Ok p
  else
    query_pool ← map_at (device_to_query_pool_ p) device;
    Ok (call (ResetQueryPoolEXT device query_pool slot_index 1) p).

Fixpoint reset_loop (device : VkDevice) (rollback_only : bool)
    (slot_indices : list N) (p : t) : result t :=
  match slot_indices with
  | [] => Ok p
  | slot_index :: rest =>
      p ← reset_one device rollback_only slot_index p;
      reset_loop device rollback_only rest p
  end.

Definition ResetQuerySlotsInternal (device : VkDevice)
    (slot_indices : list N) (rollback_only : bool) (p : t) : result t :=
  match slot_indices with
  | [] => Ok p
  | _ =>
      _ ← CHECK (contains (device_to_query_slots_ p) device);
      _ ← map_at (device_to_query_slots_ p) device;
      _ ← map_at (device_to_free_slots_ p) device;
      reset_loop device rollback_only slot_indices p
  end.

Definition ResetQuerySlots (device : VkDevice) (slot_indices : list N)
    (p : t) : result t :=
  ResetQuerySlotsInternal device slot_indices false p.

Definition RollbackPendingQuerySlots (device : VkDevice)
    (slot_indices : list N) (p : t) : result t :=
  ResetQuerySlotsInternal device slot_indices true p.

(** The state of a device's slots. *)

Definition count_state (s : SlotState) (slots : list SlotState) : nat :=
  length (filter (fun x => x = s) slots).

(* Every slot in [0, N) has a state, ready or pending; the free list has no
   duplicate and holds exactly the slots whose state is ready, so that the
   length of the free list and the number of pending slots add up to N. *)
Record slots_inv (n : N) (slots : list SlotState) (free_slots : list N)
    : Prop := {
  inv_length : length slots = N.to_nat n;
  inv_count : (count_state kReadyForQueryIssue slots
               + count_state kQueryPendingOnGpu slots)%nat = N.to_nat n;
  inv_nodup : NoDup free_slots;
  inv_free : forall i : N,
    i ∈ free_slots <-> slots !! N.to_nat i = Some kReadyForQueryIssue;
  inv_ready : length free_slots = count_state kReadyForQueryIssue slots
}.

Definition pool_inv (p : t) (device : VkDevice) : Prop :=
  exists slots free_slots,
    device_to_query_slots_ p !! device = Some slots /\
    device_to_free_slots_ p !! device = Some free_slots /\
    slots_inv (num_timer_query_slots_ p) slots free_slots.

End TimerQueryPool.

(** ** The collaborators of the tracker

    [SubmissionTracker] is a template over its dispatch table and its timer
    query pool; the two interfaces below are what it calls on them. The
    state of each collaborator is threaded through the calls. *)

Class DispatchTable (D : Type) : Type := {
  (* dispatch_table_->CmdWriteTimestamp(cb)(cb, stage, query_pool, query) *)
  CmdWriteTimestamp :
    VkCommandBuffer -> VkPipelineStageFlagBits -> VkQueryPool -> N -> D -> D;
  (* dispatch_table_->GetQueryPoolResults(device)(device, query_pool,
     first_query, 1, 8, &data, 8, VK_QUERY_RESULT_64_BIT): the result code
     and the 64-bit value left in [data]. *)
  GetQueryPoolResults :
    VkDevice -> VkQueryPool -> N -> D -> VkResult * N * D
}.

Class TimerQueryPoolT (P : Type) : Type := {
  GetQueryPool : VkDevice -> P -> result VkQueryPool;
  NextReadyQuerySlot : VkDevice -> P -> result (option N * P);
  ResetQuerySlots : VkDevice -> list N -> P -> result P;
  RollbackPendingQuerySlots : VkDevice -> list N -> P -> result P
}.

#[global] Instance TimerQueryPool_pool : TimerQueryPoolT TimerQueryPool.t := {
  GetQueryPool := TimerQueryPool.GetQueryPool;
  NextReadyQuerySlot := TimerQueryPool.NextReadyQuerySlot;
  ResetQuerySlots := TimerQueryPool.ResetQuerySlots;
  RollbackPendingQuerySlots := TimerQueryPool.RollbackPendingQuerySlots
}.

(* A driver that keeps the calls it receives. [results] are the ticks
   that the GPU writes into the slots of the query pool, and they become
   readable once the driver has answered [visible_from] queries (the GPU
   runs on while the CPU polls); until then, and for a slot without a
   result, a query answers VK_NOT_READY. *)
Module Driver.

Record t : Type := mk {
  results : gmap N N;
  visible_from : nat;
  written : list (N * VkPipelineStageFlagBits * N * N);
  queried : list N
}.

Definition new (results : gmap N N) : t := mk results 0 [] [].

Definition write (cb : VkCommandBuffer) (stage : VkPipelineStageFlagBits)
    (query_pool : VkQueryPool) (query : N) (d : t) : t :=
  mk (results d) (visible_from d)
     (written d ++ [(cb, stage, query_pool, query)]) (queried d).

Definition query (device : VkDevice) (query_pool : VkQueryPool)
    (first_query : N) (d : t) : VkResult * N * t :=
  let d' := mk (results d) (visible_from d) (written d)
               (queried d ++ [first_query]) in
  if (visible_from d <=? length (queried d))%nat then
    match results d !! first_query with
    | Some ticks => (VK_SUCCESS, ticks, d')
    | None => (VK_NOT_READY, 0, d')
    end
  else (VK_NOT_READY, 0, d').

End Driver.

#[global] Instance Driver_dispatch : DispatchTable Driver.t := {
  CmdWriteTimestamp := Driver.write;
  GetQueryPoolResults := Driver.query
}.

(** ** SubmissionTracker: data *)

Record Color : Type := mkColor {
  red : Q;
  green : Q;
  blue : Q;
  alpha : Q
}.

Inductive MarkerType : Set :=
| kDebugMarkerBegin
| kDebugMarkerEnd.

Record SubmissionMetaInformation : Type := mkMeta {
  pre_submission_cpu_timestamp : N;
  post_submission_cpu_timestamp : N;
  thread_id : Z
}.

Module Marker.
Record t : Type := mk {
  type : MarkerType;
  slot_index : option N;
  text : option string;
  color : option Color
}.
Definition set_slot_index (s : option N) (m : t) : t :=
  mk (type m) s (text m) (color m).
End Marker.

Module SubmittedMarker.
Record t : Type := mk {
  meta_information : SubmissionMetaInformation;
  slot_index : N
}.
End SubmittedMarker.

Module MarkerState.
Record t : Type := mk {
  begin_info : option SubmittedMarker.t;
  end_info : option SubmittedMarker.t;
  text : string;
  color : Color;
  depth : N
}.
Definition set_end_info (e : option SubmittedMarker.t) (m : t) : t :=
  mk (begin_info m) e (text m) (color m) (depth m).
End MarkerState.

Module CommandBufferState.
Record t : Type := mk {
  command_buffer_begin_slot_index : option N;
  command_buffer_end_slot_index : option N;
  markers : list Marker.t;
  local_marker_stack_size : N
}.
(* command_buffer_to_state_[cb] = {} *)
Definition empty : t := mk None None [] 0.
Definition set_begin (s : option N) (c : t) : t :=
  mk s (command_buffer_end_slot_index c) (markers c) (local_marker_stack_size c).
Definition set_end (s : option N) (c : t) : t :=
  mk (command_buffer_begin_slot_index c) s (markers c) (local_marker_stack_size c).
Definition set_markers (ms : list Marker.t) (c : t) : t :=
  mk (command_buffer_begin_slot_index c) (command_buffer_end_slot_index c) ms
     (local_marker_stack_size c).
Definition set_size (n : N) (c : t) : t :=
  mk (command_buffer_begin_slot_index c) (command_buffer_end_slot_index c)
     (markers c) n.
End CommandBufferState.

Module SubmittedCommandBuffer.
Record t : Type := mk {
  command_buffer_begin_slot_index : option N;
  command_buffer_end_slot_index : N
}.
End SubmittedCommandBuffer.

Module SubmitInfo.
Record t : Type := mk {
  command_buffers : list SubmittedCommandBuffer.t
}.
End SubmitInfo.

Module QueueSubmission.
Record t : Type := mk {
  meta_information : SubmissionMetaInformation;
  submit_infos : list SubmitInfo.t;
  completed_markers : list MarkerState.t;
  num_begin_markers : N
}.
End QueueSubmission.

(* A VkSubmitInfo, as far as the tracker reads it: pCommandBuffers[0 ..
   commandBufferCount). *)
Abbreviation VkSubmitInfo := (list N).

Record SubmissionTracker (D P : Type) : Type := mkTracker {
  max_local_marker_depth_per_command_buffer_ : N;
  pool_to_command_buffers_ : gmap N (gset N);
  command_buffer_to_device_ : gmap N N;
  command_buffer_to_state_ : gmap N CommandBufferState.t;
  queue_to_submissions_ : gmap N (list QueueSubmission.t);
  (* QueueMarkerState has the one field marker_stack *)
  queue_to_markers_ : gmap N (list MarkerState.t);
  dispatch_table_ : D;
  timer_query_pool_ : P
}.
Arguments mkTracker {D P}.
Arguments max_local_marker_depth_per_command_buffer_ {D P}.
Arguments pool_to_command_buffers_ {D P}.
Arguments command_buffer_to_device_ {D P}.
Arguments command_buffer_to_state_ {D P}.
Arguments queue_to_submissions_ {D P}.
Arguments queue_to_markers_ {D P}.
Arguments dispatch_table_ {D P}.
Arguments timer_query_pool_ {D P}.

Section Tracker.
Context {D P : Type} `{!DispatchTable D} `{!TimerQueryPoolT P}.

Abbreviation tracker := (SubmissionTracker D P).

Definition new_tracker (max_local_marker_depth_per_command_buffer : N)
    (dispatch_table : D) (timer_query_pool : P) : tracker :=
  mkTracker max_local_marker_depth_per_command_buffer ∅ ∅ ∅ ∅ ∅
            dispatch_table timer_query_pool.

Definition set_pools (m : gmap N (gset N)) (t : tracker) : tracker :=
  mkTracker (max_local_marker_depth_per_command_buffer_ t) m
    (command_buffer_to_device_ t) (command_buffer_to_state_ t)
    (queue_to_submissions_ t) (queue_to_markers_ t)
    (dispatch_table_ t) (timer_query_pool_ t).

Definition set_devices (m : gmap N N) (t : tracker) : tracker :=
  mkTracker (max_local_marker_depth_per_command_buffer_ t)
    (pool_to_command_buffers_ t) m (command_buffer_to_state_ t)
    (queue_to_submissions_ t) (queue_to_markers_ t)
    (dispatch_table_ t) (timer_query_pool_ t).

Definition set_states (m : gmap N CommandBufferState.t) (t : tracker) : tracker :=
  mkTracker (max_local_marker_depth_per_command_buffer_ t)
    (pool_to_command_buffers_ t) (command_buffer_to_device_ t) m
    (queue_to_submissions_ t) (queue_to_markers_ t)
    (dispatch_table_ t) (timer_query_pool_ t).

Definition set_submissions (m : gmap N (list QueueSubmission.t)) (t : tracker)
    : tracker :=
  mkTracker (max_local_marker_depth_per_command_buffer_ t)
    (pool_to_command_buffers_ t) (command_buffer_to_device_ t)
    (command_buffer_to_state_ t) m (queue_to_markers_ t)
    (dispatch_table_ t) (timer_query_pool_ t).

Definition set_markers (m : gmap N (list MarkerState.t)) (t : tracker) : tracker :=
  mkTracker (max_local_marker_depth_per_command_buffer_ t)
    (pool_to_command_buffers_ t) (command_buffer_to_device_ t)
    (command_buffer_to_state_ t) (queue_to_submissions_ t) m
    (dispatch_table_ t) (timer_query_pool_ t).

Definition set_dispatch (d : D) (t : tracker) : tracker :=
  mkTracker (max_local_marker_depth_per_command_buffer_ t)
    (pool_to_command_buffers_ t) (command_buffer_to_device_ t)
    (command_buffer_to_state_ t) (queue_to_submissions_ t)
    (queue_to_markers_ t) d (timer_query_pool_ t).

Definition set_pool (p : P) (t : tracker) : tracker :=
  mkTracker (max_local_marker_depth_per_command_buffer_ t)
    (pool_to_command_buffers_ t) (command_buffer_to_device_ t)
    (command_buffer_to_state_ t) (queue_to_submissions_ t)
    (queue_to_markers_ t) (dispatch_table_ t) p.

(** ** SubmissionTracker: command-buffer bookkeeping *)

(* The loop of TrackCommandBuffers: [associated_cbs] is the set of the
   pool, a reference into pool_to_command_buffers_. *)
Fixpoint track_loop (device : VkDevice) (command_buffers : list N)
    (associated_cbs : gset N) (devices : gmap N N) : gset N * gmap N N :=
  match command_buffers with
  | [] => (associated_cbs, devices)
  | cb :: rest =>
      track_loop device rest ({[cb]} ∪ associated_cbs) (<[cb := device]> devices)
  end.

Definition TrackCommandBuffers (device : VkDevice) (pool : VkCommandPool)
    (command_buffers : list N) (t : tracker) : result tracker :=
  let pools :=
    if contains (pool_to_command_buffers_ t) pool
    then pool_to_command_buffers_ t
    else <[pool := ∅]> (pool_to_command_buffers_ t) in
  associated_cbs ← map_at pools pool;
  let '(associated_cbs, devices) :=
    track_loop device command_buffers associated_cbs
               (command_buffer_to_device_ t) in
  Ok (set_devices devices (set_pools (<[pool := associated_cbs]> pools) t)).

Fixpoint untrack_loop (device : VkDevice) (command_buffers : list N)
    (associated : gset N) (devices : gmap N N) : result (gset N * gmap N N) :=
  match command_buffers with
  | [] => Ok (associated, devices)
  | command_buffer :: rest =>
      let associated := associated ∖ {[command_buffer]} in
      _ ← CHECK (contains devices command_buffer);
      d ← map_at devices command_buffer;
      _ ← CHECK (bool_decide (d = device));
      untrack_loop device rest associated (delete command_buffer devices)
  end.

Definition UntrackCommandBuffers (device : VkDevice) (pool : VkCommandPool)
    (command_buffers : list N) (t : tracker) : result tracker :=
  _ ← CHECK (contains (pool_to_command_buffers_ t) pool);
  associated ← map_at (pool_to_command_buffers_ t) pool;
  '(associated, devices) ←
    untrack_loop device command_buffers associated (command_buffer_to_device_ t);
  let pools :=
    if bool_decide (associated = ∅)
    then delete pool (pool_to_command_buffers_ t)
    else <[pool := associated]> (pool_to_command_buffers_ t) in
  Ok (set_devices devices (set_pools pools t)).

(** ** SubmissionTracker: recording *)

Definition RecordTimestamp (command_buffer : VkCommandBuffer)
    (pipeline_stage_flags : VkPipelineStageFlagBits) (t : tracker)
    : result (N * tracker) :=
  _ ← CHECK (contains (command_buffer_to_device_ t) command_buffer);
  device ← map_at (command_buffer_to_device_ t) command_buffer;
  query_pool ← GetQueryPool device (timer_query_pool_ t);
  '(found_slot, pool) ← NextReadyQuerySlot device (timer_query_pool_ t);
  (* CHECK(found_slot) *)
  slot_index ← match found_slot with
               | Some slot_index => Ok slot_index
               | None => Fail CheckFailed
               end;
  Ok (slot_index,
      set_dispatch
        (CmdWriteTimestamp command_buffer pipeline_stage_flags query_pool
           slot_index (dispatch_table_ t))
        (set_pool pool t)).

(* [is_capturing] is what IsCapturing() answers at the place where the
   hook reads it; every hook below reads it at most once. *)
Definition MarkCommandBufferBegin (is_capturing : bool)
    (command_buffer : VkCommandBuffer) (t : tracker) : result tracker :=
  _ ← CHECK (negb (contains (command_buffer_to_state_ t) command_buffer));
  let t := set_states
             (<[command_buffer := CommandBufferState.empty]>
                (command_buffer_to_state_ t)) t in
  if negb is_capturing then Ok t
  else
    '(slot_index, t) ← RecordTimestamp command_buffer
                          VK_PIPELINE_STAGE_TOP_OF_PIPE_BIT t;
    state ← map_at (command_buffer_to_state_ t) command_buffer;
    Ok (set_states
          (<[command_buffer := CommandBufferState.set_begin (Some slot_index) state]>
             (command_buffer_to_state_ t)) t).

Definition MarkCommandBufferEnd (is_capturing : bool)
    (command_buffer : VkCommandBuffer) (t : tracker) : result tracker :=
  if negb is_capturing then Ok t
  else
    '(slot_index, t) ← RecordTimestamp command_buffer
                          VK_PIPELINE_STAGE_BOTTOM_OF_PIPE_BIT t;
    _ ← CHECK (contains (command_buffer_to_state_ t) command_buffer);
    state ← map_at (command_buffer_to_state_ t) command_buffer;
    Ok (set_states
          (<[command_buffer := CommandBufferState.set_end (Some slot_index) state]>
             (command_buffer_to_state_ t)) t).

(* state.markers.back().slot_index = slot_index *)
Definition set_back_slot_index (slot_index : N) (markers : list Marker.t)
    : result (list Marker.t) :=
  match pop_back markers with
  | None => Fail UndefinedBehaviour
  | Some (init, marker) =>
      Ok (init ++ [Marker.set_slot_index (Some slot_index) marker])
  end.

(* The last block of both marker hooks: the slot goes to the entry that
   the hook has just appended. *)
Definition attach_slot_to_last_marker (command_buffer : VkCommandBuffer)
    (slot_index : N) (t : tracker) : result tracker :=
  _ ← CHECK (contains (command_buffer_to_state_ t) command_buffer);
  state ← map_at (command_buffer_to_state_ t) command_buffer;
  markers ← set_back_slot_index slot_index (CommandBufferState.markers state);
  Ok (set_states
        (<[command_buffer := CommandBufferState.set_markers markers state]>
           (command_buffer_to_state_ t)) t).

Definition too_many_markers (max_depth local_marker_stack_size : N) : bool :=
  (0 <? max_depth) && (max_depth <? local_marker_stack_size).

Definition MarkDebugMarkerBegin (is_capturing : bool)
    (command_buffer : VkCommandBuffer) (text : string) (color : Color)
    (t : tracker) : result tracker :=
  _ ← CHECK (contains (command_buffer_to_state_ t) command_buffer);
  state ← map_at (command_buffer_to_state_ t) command_buffer;
  let marker := Marker.mk kDebugMarkerBegin None (Some text) (Some color) in
  let state := CommandBufferState.set_markers
                 (CommandBufferState.markers state ++ [marker]) state in
  let state := CommandBufferState.set_size
                 (uint32_incr (CommandBufferState.local_marker_stack_size state))
                 state in
  let too_many := too_many_markers
                    (max_local_marker_depth_per_command_buffer_ t)
                    (CommandBufferState.local_marker_stack_size state) in
  let t := set_states (<[command_buffer := state]> (command_buffer_to_state_ t)) t in
  if negb is_capturing || too_many then Ok t
  else
    '(slot_index, t) ← RecordTimestamp command_buffer
                          VK_PIPELINE_STAGE_TOP_OF_PIPE_BIT t;
    attach_slot_to_last_marker command_buffer slot_index t.

Definition MarkDebugMarkerEnd (is_capturing : bool)
    (command_buffer : VkCommandBuffer) (t : tracker) : result tracker :=
  _ ← CHECK (contains (command_buffer_to_state_ t) command_buffer);
  state ← map_at (command_buffer_to_state_ t) command_buffer;
  let marker := Marker.mk kDebugMarkerEnd None None None in
  let state := CommandBufferState.set_markers
                 (CommandBufferState.markers state ++ [marker]) state in
  let too_many := too_many_markers
                    (max_local_marker_depth_per_command_buffer_ t)
                    (CommandBufferState.local_marker_stack_size state) in
  let state :=
    if negb (CommandBufferState.local_marker_stack_size state =? 0)
    then CommandBufferState.set_size
           (CommandBufferState.local_marker_stack_size state - 1) state
    else state in
  let t := set_states (<[command_buffer := state]> (command_buffer_to_state_ t)) t in
  if negb is_capturing || too_many then Ok t
  else
    '(slot_index, t) ← RecordTimestamp command_buffer
                          VK_PIPELINE_STAGE_BOTTOM_OF_PIPE_BIT t;
    attach_slot_to_last_marker command_buffer slot_index t.

(* [now] is MonotonicTimestampNs() at the call. *)
Definition PreSubmission (is_capturing : bool) (now : N) : option N :=
  if negb is_capturing then None else Some now.

(** ** SubmissionTracker: queue submission *)

(* The slots a record references, in the order in which
   DoPostSubmitQueue and ResetCommandBuffer push them. *)
Definition marker_slots (markers : list Marker.t) : list N :=
  omap Marker.slot_index markers.

Definition state_slots (state : CommandBufferState.t) : list N :=
  match CommandBufferState.command_buffer_begin_slot_index state with
  | Some s => [s]
  | None => []
  end ++
  match CommandBufferState.command_buffer_end_slot_index state with
  | Some s => [s]
  | None => []
  end ++
  marker_slots (CommandBufferState.markers state).

(* First branch of DoPostSubmitQueue, the loop over the command buffers
   of one VkSubmitInfo. The accumulator is (device, reset_slots,
   command_buffer_to_state_). *)
Fixpoint reset_command_buffers (devices : gmap N N) (command_buffers : list N)
    (acc : N * list N * gmap N CommandBufferState.t)
    : result (N * list N * gmap N CommandBufferState.t) :=
  match command_buffers with
  | [] => Ok acc
  | command_buffer :: rest =>
      let '(device, reset_slots, states) := acc in
      device ← (if device =? VK_NULL_HANDLE
                then map_at devices command_buffer
                else Ok device);
      match states !! command_buffer with
      | None => reset_command_buffers devices rest (device, reset_slots, states)
      | Some state =>
          reset_command_buffers devices rest
            (device, reset_slots ++ state_slots state,
             delete command_buffer states)
      end
  end.

Fixpoint reset_submits (devices : gmap N N) (submits : list VkSubmitInfo)
    (acc : N * list N * gmap N CommandBufferState.t)
    : result (N * list N * gmap N CommandBufferState.t) :=
  match submits with
  | [] => Ok acc
  | submit_info :: rest =>
      acc ← reset_command_buffers devices submit_info acc;
      reset_submits devices rest acc
  end.

Definition DoPostSubmitQueue_not_capturing (submits : list VkSubmitInfo)
    (t : tracker) : result tracker :=
  if bool_decide (command_buffer_to_state_ t = ∅) then Ok t
  else
    '(device, reset_slots, states) ←
      reset_submits (command_buffer_to_device_ t) submits
        (VK_NULL_HANDLE, [], command_buffer_to_state_ t);
    let t := set_states states t in
    match reset_slots with
    | [] => Ok t
    | _ =>
        pool ← ResetQuerySlots device reset_slots (timer_query_pool_ t);
        Ok (set_pool pool t)
    end.

(* Second branch. The state of the walk over the markers of the submitted
   command buffers: the marker stack of the queue (top first) and the
   fields of [queue_submission] that the walk writes. *)
Record marker_walk : Type := mkWalk {
  marker_stack : list MarkerState.t;
  walk_completed_markers : list MarkerState.t;
  walk_num_begin_markers : N
}.

(* The body of [for (const Marker& marker : state.markers)]. *)
Definition walk_marker (meta_information : SubmissionMetaInformation)
    (marker : Marker.t) (w : marker_walk) : result marker_walk :=
  let submitted_marker :=
    match Marker.slot_index marker with
    | Some slot => Some (SubmittedMarker.mk meta_information slot)
    | None => None
    end in
  match Marker.type marker with
  | kDebugMarkerBegin =>
      let num_begin_markers :=
        if has_value (Marker.slot_index marker)
        then uint32_incr (walk_num_begin_markers w)
        else walk_num_begin_markers w in
      (* CHECK(marker.text.has_value()); CHECK(marker.color.has_value()) *)
      text ← match Marker.text marker with
             | Some s => Ok s
             | None => Fail CheckFailed
             end;
      color ← match Marker.color marker with
              | Some c => Ok c
              | None => Fail CheckFailed
              end;
      let marker_state :=
        MarkerState.mk submitted_marker None text color
                       (N.of_nat (length (marker_stack w))) in
      Ok (mkWalk (marker_state :: marker_stack w)
                 (walk_completed_markers w) num_begin_markers)
  | kDebugMarkerEnd =>
      match marker_stack w with
      | [] => Fail UndefinedBehaviour     (* top() of an empty stack *)
      | marker_state :: stack =>
          if has_value (Marker.slot_index marker)
          then Ok (mkWalk stack
                     (walk_completed_markers w ++
                        [MarkerState.set_end_info submitted_marker marker_state])
                     (walk_num_begin_markers w))
          else Ok (mkWalk stack (walk_completed_markers w)
                          (walk_num_begin_markers w))
      end
  end.

Fixpoint walk_markers (meta_information : SubmissionMetaInformation)
    (markers : list Marker.t) (w : marker_walk) : result marker_walk :=
  match markers with
  | [] => Ok w
  | marker :: rest =>
      w ← walk_marker meta_information marker w;
      walk_markers meta_information rest w
  end.

(* The body of the loop over the command buffers of one VkSubmitInfo: the
   accumulator is (command_buffer_to_state_, the walk, the command buffers
   of submitted_submit_info). *)
Definition submit_command_buffer (meta_information : SubmissionMetaInformation)
    (command_buffer : VkCommandBuffer)
    (acc : gmap N CommandBufferState.t * marker_walk * list SubmittedCommandBuffer.t)
    : result (gmap N CommandBufferState.t * marker_walk
              * list SubmittedCommandBuffer.t) :=
  let '(states, w, submitted) := acc in
  _ ← CHECK (contains states command_buffer);
  state ← map_at states command_buffer;
  w ← walk_markers meta_information (CommandBufferState.markers state) w;
  end_slot ← value (CommandBufferState.command_buffer_end_slot_index state);
  let submitted_command_buffer :=
    SubmittedCommandBuffer.mk
      (CommandBufferState.command_buffer_begin_slot_index state) end_slot in
  Ok (delete command_buffer states, w, submitted ++ [submitted_command_buffer]).

Fixpoint submit_command_buffers (meta_information : SubmissionMetaInformation)
    (command_buffers : list N)
    (acc : gmap N CommandBufferState.t * marker_walk * list SubmittedCommandBuffer.t)
    : result (gmap N CommandBufferState.t * marker_walk
              * list SubmittedCommandBuffer.t) :=
  match command_buffers with
  | [] => Ok acc
  | command_buffer :: rest =>
      acc ← submit_command_buffer meta_information command_buffer acc;
      submit_command_buffers meta_information rest acc
  end.

(* The loop over the VkSubmitInfos: the accumulator is
   (command_buffer_to_state_, the walk, queue_submission.submit_infos). *)
Fixpoint submit_infos_loop (meta_information : SubmissionMetaInformation)
    (submits : list VkSubmitInfo)
    (acc : gmap N CommandBufferState.t * marker_walk * list SubmitInfo.t)
    : result (gmap N CommandBufferState.t * marker_walk * list SubmitInfo.t) :=
  match submits with
  | [] => Ok acc
  | submit_info :: rest =>
      let '(states, w, infos) := acc in
      '(states, w, submitted) ←
        submit_command_buffers meta_information submit_info (states, w, []);
      submit_infos_loop meta_information rest
        (states, w, infos ++ [SubmitInfo.mk submitted])
  end.

(* [now] is MonotonicTimestampNs() and [tid] is GetCurrentThreadId(). *)
Definition DoPostSubmitQueue_capturing (now : N) (tid : Z) (queue : VkQueue)
    (submits : list VkSubmitInfo) (pre_submit_timestamp : N) (t : tracker)
    : result tracker :=
  let queue_markers :=
    if contains (queue_to_markers_ t) queue
    then queue_to_markers_ t
    else <[queue := []]> (queue_to_markers_ t) in
  _ ← CHECK (contains queue_markers queue);
  stack ← map_at queue_markers queue;
  let meta_information := mkMeta pre_submit_timestamp now tid in
  '(states, w, infos) ←
    submit_infos_loop meta_information submits
      (command_buffer_to_state_ t, mkWalk stack [] 0, []);
  let queue_submission :=
    QueueSubmission.mk meta_information infos (walk_completed_markers w)
                       (walk_num_begin_markers w) in
  let submissions :=
    if contains (queue_to_submissions_ t) queue
    then queue_to_submissions_ t
    else <[queue := []]> (queue_to_submissions_ t) in
  in_flight ← map_at submissions queue;
  Ok (set_submissions (<[queue := in_flight ++ [queue_submission]]> submissions)
        (set_markers (<[queue := marker_stack w]> queue_markers)
           (set_states states t))).

Definition DoPostSubmitQueue (is_capturing : bool) (now : N) (tid : Z)
    (queue : VkQueue) (submits : list VkSubmitInfo)
    (pre_submit_timestamp : option N) (t : tracker) : result tracker :=
  match is_capturing, pre_submit_timestamp with
  | true, Some pre => DoPostSubmitQueue_capturing now tid queue submits pre t
  | _, _ => DoPostSubmitQueue_not_capturing submits t
  end.

(** ** SubmissionTracker: completed submissions *)

(* The inner while loop of PullCompletedSubmissions. [positions] are the
   submit infos that the reverse iterator still has to visit; the body
   does not dereference the iterator: [submit_info] is
   submission.submit_infos.back() in every iteration. The result is
   (erase_submission, was the submission pushed to completed_submissions,
   dispatch table). *)
Fixpoint probe_loop (device : VkDevice) (query_pool : VkQueryPool)
    (positions : list SubmitInfo.t) (submit_info : SubmitInfo.t) (d : D)
    : bool * bool * D :=
  match positions with
  | [] => (true, false, d)
  | _ :: positions =>
      match back (SubmitInfo.command_buffers submit_info) with
      | None => probe_loop device query_pool positions submit_info d
      | Some last_command_buffer =>
          let check_slot_index_end :=
            SubmittedCommandBuffer.command_buffer_end_slot_index
              last_command_buffer in
          let '(query_worked, _, d) :=
            GetQueryPoolResults device query_pool check_slot_index_end d in
          if VkResult_is_success query_worked
          then (true, true, d)
          else (false, false, d)
      end
  end.

(* The outer while loop, on the submissions of one queue: the result is
   (what is appended to completed_submissions, what stays in
   queue_submissions, dispatch table). *)
Fixpoint pull_queue (device : VkDevice) (query_pool : VkQueryPool)
    (queue_submissions : list QueueSubmission.t) (d : D)
    : list QueueSubmission.t * list QueueSubmission.t * D :=
  match queue_submissions with
  | [] => ([], [], d)
  | submission :: rest =>
      match back (QueueSubmission.submit_infos submission) with
      | None => pull_queue device query_pool rest d
      | Some submit_info =>
          let '(erase_submission, completed, d) :=
            probe_loop device query_pool
              (rev (QueueSubmission.submit_infos submission)) submit_info d in
          let '(completed_rest, kept_rest, d) :=
            pull_queue device query_pool rest d in
          ((if completed then [submission] else []) ++ completed_rest,
           (if erase_submission then [] else [submission]) ++ kept_rest,
           d)
      end
  end.

(* The loop over queue_to_submissions_; a hash map is walked in an
   unspecified order, here in the order of [map_to_list]. *)
Fixpoint pull_queues (device : VkDevice) (query_pool : VkQueryPool)
    (queues : list (N * list QueueSubmission.t))
    (acc : list QueueSubmission.t * gmap N (list QueueSubmission.t) * D)
    : list QueueSubmission.t * gmap N (list QueueSubmission.t) * D :=
  match queues with
  | [] => acc
  | (queue, queue_submissions) :: rest =>
      let '(completed_submissions, m, d) := acc in
      let '(completed, kept, d) :=
        pull_queue device query_pool queue_submissions d in
      pull_queues device query_pool rest
        (completed_submissions ++ completed, <[queue := kept]> m, d)
  end.

Definition PullCompletedSubmissions (device : VkDevice)
    (query_pool : VkQueryPool) (t : tracker)
    : list QueueSubmission.t * tracker :=
  let '(completed_submissions, m, d) :=
    pull_queues device query_pool (map_to_list (queue_to_submissions_ t))
      ([], queue_to_submissions_ t, dispatch_table_ t) in
  (completed_submissions, set_dispatch d (set_submissions m t)).

(** ** SubmissionTracker: resets *)

Definition ResetCommandBuffer (command_buffer : VkCommandBuffer) (t : tracker)
    : result tracker :=
  if negb (contains (command_buffer_to_state_ t) command_buffer) then Ok t
  else
    state ← map_at (command_buffer_to_state_ t) command_buffer;
    device ← map_at (command_buffer_to_device_ t) command_buffer;
    let marker_slots_to_rollback := state_slots state in
    pool ← RollbackPendingQuerySlots device marker_slots_to_rollback
             (timer_query_pool_ t);
    Ok (set_states (delete command_buffer (command_buffer_to_state_ t))
          (set_pool pool t)).

Fixpoint reset_each (command_buffers : list N) (t : tracker) : result tracker :=
  match command_buffers with
  | [] => Ok t
  | command_buffer :: rest =>
      t ← ResetCommandBuffer command_buffer t;
      reset_each rest t
  end.

(* The copied hash set is walked in the order of [elements]. *)
Definition ResetCommandPool (command_pool : VkCommandPool) (t : tracker)
    : result tracker :=
  if negb (contains (pool_to_command_buffers_ t) command_pool) then Ok t
  else
    command_buffers ← map_at (pool_to_command_buffers_ t) command_pool;
    reset_each (elements command_buffers) t.

End Tracker.

(** ** Vocabulary of the properties *)

(* A record references a slot: it is its begin slot, its end slot, or the
   slot of one of its marker entries. *)
Definition references (state : CommandBufferState.t) (slot : N) : Prop :=
  CommandBufferState.command_buffer_begin_slot_index state = Some slot \/
  CommandBufferState.command_buffer_end_slot_index state = Some slot \/
  exists marker, marker ∈ CommandBufferState.markers state /\
                 Marker.slot_index marker = Some slot.

(* Two pools with the same bookkeeping: they differ at most in the calls
   that the driver has received. *)
Definition same_bookkeeping (p q : TimerQueryPool.t) : Prop :=
  TimerQueryPool.num_timer_query_slots_ p = TimerQueryPool.num_timer_query_slots_ q /\
  TimerQueryPool.device_to_query_pool_ p = TimerQueryPool.device_to_query_pool_ q /\
  TimerQueryPool.device_to_query_slots_ p = TimerQueryPool.device_to_query_slots_ q /\
  TimerQueryPool.device_to_free_slots_ p = TimerQueryPool.device_to_free_slots_ q.

(* The entries that the two marker hooks append, with the slot they end up
   with, and the record after each hook: one more entry, and the local depth
   one up (begin) or one down and not below zero (end). *)
Definition begin_entry (text : string) (color : Color) (slot : option N)
    : Marker.t :=
  Marker.mk kDebugMarkerBegin slot (Some text) (Some color).

Definition end_entry (slot : option N) : Marker.t :=
  Marker.mk kDebugMarkerEnd slot None None.

Definition after_begin_marker (state : CommandBufferState.t) (text : string)
    (color : Color) (slot : option N) : CommandBufferState.t :=
  CommandBufferState.mk
    (CommandBufferState.command_buffer_begin_slot_index state)
    (CommandBufferState.command_buffer_end_slot_index state)
    (CommandBufferState.markers state ++ [begin_entry text color slot])
    ((CommandBufferState.local_marker_stack_size state + 1) mod 2 ^ 32).

Definition after_end_marker (state : CommandBufferState.t) (slot : option N)
    : CommandBufferState.t :=
  CommandBufferState.mk
    (CommandBufferState.command_buffer_begin_slot_index state)
    (CommandBufferState.command_buffer_end_slot_index state)
    (CommandBufferState.markers state ++ [end_entry slot])
    (if CommandBufferState.local_marker_stack_size state =? 0 then 0
     else CommandBufferState.local_marker_stack_size state - 1).

(* The slot that the drain is specified to probe for a submission: "find the
   last submit-info holding at least one command buffer and probe [...] that
   buffer's end-slot", that is, the end slot of the last command buffer of
   the whole submission; none if the submission has no command buffer. This
   definition follows the specification, not PullCompletedSubmissions. *)
Definition spec_probe_slot (submission : QueueSubmission.t) : option N :=
  SubmittedCommandBuffer.command_buffer_end_slot_index <$>
    back (concat (SubmitInfo.command_buffers <$>
                    QueueSubmission.submit_infos submission)).

(** ** A small installation

    One device ([7]) whose query pool ([9]) has four slots, a driver whose
    query pool holds no result yet, and a tracker on top of them. The
    scenarios of the properties below start from here. *)

Definition the_device : N := 7.
Definition the_query_pool : N := 9.
Definition the_command_pool : N := 100.
Definition the_queue : N := 200.

Definition fresh_pool : TimerQueryPool.t :=
  match TimerQueryPool.InitializeTimerQueryPool the_device
          (VK_SUCCESS, the_query_pool) (TimerQueryPool.new 4) with
  | Ok p => p
  | Fail _ => TimerQueryPool.new 4
  end.

Definition fresh_tracker (max_depth : N)
    : SubmissionTracker Driver.t TimerQueryPool.t :=
  new_tracker max_depth (Driver.new ∅) fresh_pool.

(* The tracker that a sequence of hooks leaves; [start] if a hook failed. *)
Definition tracker_after (start : SubmissionTracker Driver.t TimerQueryPool.t)
    (hooks : result (SubmissionTracker Driver.t TimerQueryPool.t))
    : SubmissionTracker Driver.t TimerQueryPool.t :=
  match hooks with
  | Ok t => t
  | Fail _ => start
  end.

(* Command buffer 1 has begun recording while capturing: it holds slot 3. *)
Definition begun_tracker : SubmissionTracker Driver.t TimerQueryPool.t :=
  tracker_after (fresh_tracker 0)
    (t ← TrackCommandBuffers the_device the_command_pool [1] (fresh_tracker 0);
     MarkCommandBufferBegin true 1 t).

(* ... and has ended recording: it holds slots 3 (begin) and 2 (end). *)
Definition recorded_tracker : SubmissionTracker Driver.t TimerQueryPool.t :=
  tracker_after begun_tracker (MarkCommandBufferEnd true 1 begun_tracker).

(* Command buffer 1 was recorded from begin to end while no capture was
   running: its record has no slot. *)
Definition recorded_before_capture_tracker
    : SubmissionTracker Driver.t TimerQueryPool.t :=
  tracker_after (fresh_tracker 0)
    (t ← TrackCommandBuffers the_device the_command_pool [1] (fresh_tracker 0);
     t ← MarkCommandBufferBegin false 1 t;
     MarkCommandBufferEnd false 1 t).

(* Maximal depth 1; command buffer 1 is recording while capturing and has
   one open marker. *)
Definition one_marker_tracker : SubmissionTracker Driver.t TimerQueryPool.t :=
  tracker_after (fresh_tracker 1)
    (t ← TrackCommandBuffers the_device the_command_pool [1] (fresh_tracker 1);
     t ← MarkCommandBufferBegin true 1 t;
     MarkDebugMarkerBegin true 1 "A" (mkColor 1 0 0 1) t).

(* Submission A (command buffer 1, pre-submit time 40) and then submission B
   (command buffer 2, pre-submit time 60) are in flight on the queue; slot 2
   is the end slot of A and slot 0 the end slot of B. The GPU completes both
   while the driver answers the first query. *)
Definition two_in_flight_tracker : SubmissionTracker Driver.t TimerQueryPool.t :=
  let start :=
    new_tracker 0
      (Driver.mk (<[3 := 11]> (<[2 := 12]> (<[1 := 13]> (<[0 := 14]> ∅)))) 1 [] [])
      fresh_pool in
  tracker_after start
    (t ← TrackCommandBuffers the_device the_command_pool [1; 2] start;
     t ← MarkCommandBufferBegin true 1 t;
     t ← MarkCommandBufferEnd true 1 t;
     t ← DoPostSubmitQueue true 50 3%Z the_queue [[1]] (PreSubmission true 40) t;
     t ← MarkCommandBufferBegin true 2 t;
     t ← MarkCommandBufferEnd true 2 t;
     DoPostSubmitQueue true 70 3%Z the_queue [[2]] (PreSubmission true 60) t).

Definition pre_submission_times (submissions : list QueueSubmission.t) : list N :=
  (fun s => pre_submission_cpu_timestamp (QueueSubmission.meta_information s))
    <$> submissions.

(* A marker that spans two command buffers, and a capture that starts in
   between. Command buffer 1 opens marker "A" and is submitted while no
   capture is running; then the capture starts, and command buffer 2, which
   closes the marker, is recorded. *)
Definition capture_started_inside_marker
    : result (SubmissionTracker Driver.t TimerQueryPool.t) :=
  t ← TrackCommandBuffers the_device the_command_pool [1; 2] (fresh_tracker 0);
  t ← MarkCommandBufferBegin false 1 t;
  t ← MarkDebugMarkerBegin false 1 "A" (mkColor 1 0 0 1) t;
  t ← MarkCommandBufferEnd false 1 t;
  t ← DoPostSubmitQueue false 30 3%Z the_queue [[1]] (PreSubmission false 20) t;
  t ← MarkCommandBufferBegin true 2 t;
  t ← MarkDebugMarkerEnd true 2 t;
  MarkCommandBufferEnd true 2 t.

Definition capture_started_inside_marker_tracker
    : SubmissionTracker Driver.t TimerQueryPool.t :=
  tracker_after (fresh_tracker 0) capture_started_inside_marker.

(* The pool after [n] acquisitions on [device] (fewer if one fails). *)
Fixpoint acquire_times (n : nat) (device : VkDevice) (p : TimerQueryPool.t)
    : TimerQueryPool.t :=
  match n with
  | O => p
  | S n =>
      match TimerQueryPool.NextReadyQuerySlot device p with
      | Ok (_, p') => acquire_times n device p'
      | Fail _ => p
      end
  end.

(** * Properties *)

(** ** Calls that return *)

Lemma bind_Ok {A B : Type} (m : result A) (k : A -> result B) (b : B) :
  m ≫= k = Ok b <-> exists a, m = Ok a /\ k a = Ok b.
Proof.
  destruct m as [a|f]; simpl.
  - split; [eauto | intros (a' & [= <-] & Hk); exact Hk].
  - split; [discriminate | intros (a' & [=] & _)].
Qed.

Lemma CHECK_Ok (cond : bool) (u : unit) : CHECK cond = Ok u <-> cond = true.
Proof. destruct cond, u; simpl; split; congruence. Qed.

Lemma map_at_Ok `{Countable K} {V : Type} (m : gmap K V) (k : K) (v : V) :
  map_at m k = Ok v <-> m !! k = Some v.
Proof. unfold map_at. destruct (m !! k); split; congruence. Qed.

Lemma contains_true `{Countable K} {V : Type} (m : gmap K V) (k : K) :
  contains m k = true <-> is_Some (m !! k).
Proof. unfold contains. rewrite bool_decide_eq_true. reflexivity. Qed.

Lemma contains_false `{Countable K} {V : Type} (m : gmap K V) (k : K) :
  contains m k = false <-> m !! k = None.
Proof.
  unfold contains. rewrite bool_decide_eq_false, eq_None_not_Some. reflexivity.
Qed.

Lemma contains_Some `{Countable K} {V : Type} (m : gmap K V) (k : K) (v : V) :
  m !! k = Some v -> contains m k = true.
Proof. intros Hk. apply contains_true. eauto. Qed.

(* Splits a hypothesis [c = Ok x] along the binds and checks of [c]. *)
Ltac inv_Ok H :=
  repeat match type of H with
  | _ ≫= _ = Ok _ =>
      let a := fresh "a" in
      let Ha := fresh "Ha" in
      apply bind_Ok in H as (a & Ha & H);
      try (apply CHECK_Ok in Ha);
      try (apply map_at_Ok in Ha)
  end.

Lemma pop_back_app {A : Type} (v : list A) (x : A) :
  pop_back (v ++ [x]) = Some (v, x).
Proof.
  induction v as [|y v IH]; simpl; [reflexivity|]. rewrite IH. reflexivity.
Qed.

Lemma pop_back_Some {A : Type} (v init : list A) (x : A) :
  pop_back v = Some (init, x) <-> v = init ++ [x].
Proof.
  split; [|intros ->; apply pop_back_app].
  revert init. induction v as [|y v IH]; simpl; intros init Hv; [discriminate|].
  destruct (pop_back v) as [[i l]|] eqn:Hp.
  - injection Hv as <- <-. simpl. f_equal. apply IH. reflexivity.
  - injection Hv as <- <-. destruct v as [|z v]; [reflexivity|].
    simpl in Hp. destruct (pop_back v) as [[? ?]|]; discriminate.
Qed.

Lemma pop_back_None {A : Type} (v : list A) : pop_back v = None <-> v = [].
Proof.
  destruct v as [|y v]; simpl; [tauto|].
  destruct (pop_back v) as [[? ?]|]; split; discriminate.
Qed.

Lemma back_app {A : Type} (v : list A) (x : A) : back (v ++ [x]) = Some x.
Proof. unfold back. rewrite pop_back_app. reflexivity. Qed.

(** ** The slot pool *)

Section PoolInvariant.
Import TimerQueryPool.

Lemma count_state_total (slots : list SlotState) :
  (count_state kReadyForQueryIssue slots
   + count_state kQueryPendingOnGpu slots)%nat = length slots.
Proof.
  unfold count_state. induction slots as [|s slots IH]; [reflexivity|].
  rewrite !filter_cons. destruct s; repeat case_decide; try congruence; simpl; lia.
Qed.

Lemma count_state_insert_ready (slots : list SlotState) (i : nat) :
  slots !! i = Some kQueryPendingOnGpu ->
  count_state kReadyForQueryIssue (<[i := kReadyForQueryIssue]> slots)
  = S (count_state kReadyForQueryIssue slots).
Proof.
  unfold count_state. revert i. induction slots as [|s slots IH]; intros i Hi.
  - discriminate.
  - destruct i as [|i]; simpl in *.
    + injection Hi as ->. rewrite !filter_cons.
      repeat case_decide; simpl; congruence.
    + rewrite !filter_cons. case_decide; simpl; rewrite (IH i Hi); reflexivity.
Qed.

Lemma count_state_insert_pending (slots : list SlotState) (i : nat) :
  slots !! i = Some kReadyForQueryIssue ->
  S (count_state kReadyForQueryIssue (<[i := kQueryPendingOnGpu]> slots))
  = count_state kReadyForQueryIssue slots.
Proof.
  unfold count_state. revert i. induction slots as [|s slots IH]; intros i Hi.
  - discriminate.
  - destruct i as [|i]; simpl in *.
    + injection Hi as ->. rewrite !filter_cons.
      repeat case_decide; simpl; congruence.
    + rewrite !filter_cons. case_decide; simpl; rewrite <- (IH i Hi); reflexivity.
Qed.

Lemma count_state_replicate (n : nat) :
  count_state kReadyForQueryIssue (replicate n kReadyForQueryIssue) = n.
Proof.
  unfold count_state. induction n as [|n IH]; [reflexivity|]. cbn [replicate].
  rewrite filter_cons. case_decide; [|congruence]. simpl. rewrite IH. reflexivity.
Qed.

Lemma slots_inv_intro (n : N) (slots : list SlotState) (free_slots : list N) :
  length slots = N.to_nat n ->
  NoDup free_slots ->
  (forall i : N,
      i ∈ free_slots <-> slots !! N.to_nat i = Some kReadyForQueryIssue) ->
  length free_slots = count_state kReadyForQueryIssue slots ->
  slots_inv n slots free_slots.
Proof.
  intros Hlen Hnd Hfree Hready. split; try assumption.
  rewrite count_state_total. exact Hlen.
Qed.

(* ready -> pending, the slot being the last of the free list *)
Lemma slots_inv_acquire (n : N) (slots : list SlotState)
    (free_slots : list N) (i : N) :
  slots_inv n slots (free_slots ++ [i]) ->
  slots_inv n (<[N.to_nat i := kQueryPendingOnGpu]> slots) free_slots.
Proof.
  intros [Hlen _ Hnd Hfree Hready].
  assert (Hi : slots !! N.to_nat i = Some kReadyForQueryIssue).
  { apply Hfree, elem_of_app. right. apply list_elem_of_singleton. reflexivity. }
  apply slots_inv_intro.
  4:{ rewrite length_app in Hready. simpl in Hready.
      pose proof (count_state_insert_pending slots (N.to_nat i) Hi). lia. }
  - rewrite length_insert. exact Hlen.
  - apply NoDup_app in Hnd. tauto.
  - intros j. destruct (decide (j = i)) as [->|Hne].
    + split.
      * intros Hin. apply NoDup_app in Hnd as (_ & Hnd & _).
        exfalso. apply (Hnd i Hin). apply list_elem_of_singleton. reflexivity.
      * intros Hl. apply lookup_lt_Some in Hi.
        rewrite list_lookup_insert_eq in Hl by exact Hi. discriminate.
    + rewrite list_lookup_insert_ne by lia. rewrite <- Hfree.
      rewrite elem_of_app, list_elem_of_singleton. tauto.
Qed.

(* pending -> ready, the slot going to the back of the free list *)
Lemma slots_inv_release (n : N) (slots : list SlotState)
    (free_slots : list N) (i : N) :
  slots !! N.to_nat i = Some kQueryPendingOnGpu ->
  slots_inv n slots free_slots ->
  slots_inv n (<[N.to_nat i := kReadyForQueryIssue]> slots) (free_slots ++ [i]).
Proof.
  intros Hi [Hlen _ Hnd Hfree Hready]. apply slots_inv_intro.
  4:{ rewrite length_app, (count_state_insert_ready slots (N.to_nat i) Hi).
      simpl. lia. }
  - rewrite length_insert. exact Hlen.
  - apply NoDup_app. split; [exact Hnd|]. split; [|apply NoDup_singleton].
    intros j Hj Hji. apply list_elem_of_singleton in Hji as ->.
    apply Hfree in Hj. congruence.
  - intros j. destruct (decide (j = i)) as [->|Hne].
    + rewrite list_lookup_insert_eq by (eapply lookup_lt_Some; exact Hi).
      rewrite elem_of_app, list_elem_of_singleton. tauto.
    + rewrite list_lookup_insert_ne by lia. rewrite <- Hfree.
      rewrite elem_of_app, list_elem_of_singleton. tauto.
Qed.

Lemma pool_inv_set_slots (p : t) (device d : VkDevice)
    (slots : list SlotState) (free_slots : list N) :
  (d = device -> slots_inv (num_timer_query_slots_ p) slots free_slots) ->
  pool_inv p d ->
  pool_inv (set_slots device slots free_slots p) d.
Proof.
  intros Hnew (slots0 & free0 & Hs & Hf & Hinv). unfold pool_inv. simpl.
  destruct (decide (d = device)) as [->|Hne].
  - exists slots, free_slots. rewrite !lookup_insert_eq. auto.
  - exists slots0, free0. rewrite !lookup_insert_ne by congruence. auto.
Qed.

Lemma pool_inv_call (p : t) (c : DriverCall) (d : VkDevice) :
  pool_inv p d -> pool_inv (call c p) d.
Proof. intros H. exact H. Qed.

Lemma NextReadyQuerySlot_inv (p p' : t) (device d : VkDevice) (slot : option N) :
  pool_inv p d ->
  NextReadyQuerySlot device p = Ok (slot, p') ->
  pool_inv p' d.
Proof.
  intros Hinv Hcall. unfold NextReadyQuerySlot in Hcall. inv_Ok Hcall.
  destruct (pop_back a1) as [[free_slots i]|] eqn:Hpop.
  - inv_Ok Hcall.
    destruct (a2 !! N.to_nat i) as [state|] eqn:Hstate; [|discriminate].
    inv_Ok Hcall. injection Hcall as <- <-.
    apply pool_inv_set_slots; [|exact Hinv].
    intros ->. destruct Hinv as (slots0 & free0 & Hs & Hf & Hinv).
    assert (slots0 = a2) as -> by congruence.
    assert (free0 = a1) as -> by congruence.
    apply pop_back_Some in Hpop as ->.
    apply slots_inv_acquire. exact Hinv.
  - injection Hcall as <- <-. exact Hinv.
Qed.

Lemma reset_one_inv (p p' : t) (device d : VkDevice) (rollback_only : bool)
    (slot_index : N) :
  pool_inv p d ->
  reset_one device rollback_only slot_index p = Ok p' ->
  pool_inv p' d.
Proof.
  intros Hinv Hcall. unfold reset_one in Hcall. inv_Ok Hcall.
  destruct (a !! N.to_nat slot_index) as [s|] eqn:Hs; [|discriminate].
  injection Ha2 as <-. apply bool_decide_eq_true in Ha3 as ->.
  assert (Hset : pool_inv
            (set_slots device (<[N.to_nat slot_index := kReadyForQueryIssue]> a)
               (a0 ++ [slot_index]) p) d).
  { apply pool_inv_set_slots; [|exact Hinv].
    intros ->. destruct Hinv as (slots0 & free0 & Hs0 & Hf0 & Hinv).
    assert (slots0 = a) as -> by congruence.
    assert (free0 = a0) as -> by congruence.
    apply slots_inv_release; assumption. }
  destruct rollback_only.
  - injection Hcall as <-. exact Hset.
  - inv_Ok Hcall. injection Hcall as <-. apply pool_inv_call. exact Hset.
Qed.

Lemma reset_loop_inv (device d : VkDevice) (rollback_only : bool)
    (slot_indices : list N) (p p' : t) :
  pool_inv p d ->
  reset_loop device rollback_only slot_indices p = Ok p' ->
  pool_inv p' d.
Proof.
  revert p. induction slot_indices as [|i rest IH]; simpl; intros p Hinv Hcall.
  - injection Hcall as <-. exact Hinv.
  - inv_Ok Hcall. eapply IH; [|exact Hcall]. eapply reset_one_inv; eassumption.
Qed.

Lemma ResetQuerySlotsInternal_inv (device d : VkDevice) (rollback_only : bool)
    (slot_indices : list N) (p p' : t) :
  pool_inv p d ->
  ResetQuerySlotsInternal device slot_indices rollback_only p = Ok p' ->
  pool_inv p' d.
Proof.
  intros Hinv Hcall. unfold ResetQuerySlotsInternal in Hcall.
  destruct slot_indices as [|i rest].
  - injection Hcall as <-. exact Hinv.
  - inv_Ok Hcall. eapply reset_loop_inv; eassumption.
Qed.

Lemma NextReadyQuerySlot_returns (p : t) (d : VkDevice) :
  pool_inv p d -> exists r, NextReadyQuerySlot d p = Ok r.
Proof.
  intros (slots & free_slots & Hs & Hf & Hinv). unfold NextReadyQuerySlot.
  rewrite (contains_Some _ _ _ Hs), (contains_Some _ _ _ Hf). simpl.
  unfold map_at. rewrite Hf. simpl.
  destruct (pop_back free_slots) as [[init i]|] eqn:Hpop; [|eauto].
  rewrite Hs. simpl. apply pop_back_Some in Hpop as ->.
  assert (Hi : i ∈ init ++ [i]).
  { apply elem_of_app. right. apply list_elem_of_singleton. reflexivity. }
  apply (inv_free _ _ _ Hinv) in Hi. rewrite Hi. simpl. eauto.
Qed.

Lemma iota_lookup (n i : N) : i ∈ iota n <-> i < n.
Proof.
  unfold iota. rewrite list_elem_of_fmap. split.
  - intros (k & -> & Hk). apply elem_of_seq in Hk. lia.
  - intros Hi. exists (N.to_nat i). split; [lia|]. apply elem_of_seq. lia.
Qed.

Lemma InitializeTimerQueryPool_inv (device : VkDevice)
    (created : VkResult * VkQueryPool) (p p' : t) :
  InitializeTimerQueryPool device created p = Ok p' ->
  pool_inv p' device.
Proof.
  destruct created as [res query_pool]. unfold InitializeTimerQueryPool.
  intros Hcall. inv_Ok Hcall. injection Hcall as <-.
  unfold pool_inv. simpl. rewrite !lookup_insert_eq.
  eexists _, _. split; [reflexivity|]. split; [reflexivity|].
  apply slots_inv_intro.
  - apply length_replicate.
  - unfold iota. apply NoDup_fmap; [intros x y; lia|]. apply NoDup_seq.
  - intros i. rewrite iota_lookup, lookup_replicate. split; [|lia].
    intros Hi. split; [reflexivity|lia].
  - unfold iota. rewrite length_fmap, length_seq, count_state_replicate.
    reflexivity.
Qed.

End PoolInvariant.

(** C6. On an initialised device every operation of the slot pool keeps the
    invariant [pool_inv]: the state vector has one entry, ready or pending,
    for each of the N slots, the numbers of ready and of pending slots add up
    to N, and the free list holds the ready slots, each once, and nothing
    else (so it is as long as there are ready slots). Acquiring
    ([NextReadyQuerySlot]) always returns on such a device; the two releases
    ([ResetQuerySlots], [RollbackPendingQuerySlots]) keep the invariant
    whenever their checks let them return. The operation may be on any
    device, the invariant is that of device [d]. *)
Theorem slot_pool_operations_preserve_invariant
    (p : TimerQueryPool.t) (device d : VkDevice) :
  TimerQueryPool.pool_inv p d ->
  (exists r, TimerQueryPool.NextReadyQuerySlot d p = Ok r) /\
  (forall slot p',
      TimerQueryPool.NextReadyQuerySlot device p = Ok (slot, p') ->
      TimerQueryPool.pool_inv p' d) /\
  (forall slot_indices p',
      TimerQueryPool.ResetQuerySlots device slot_indices p = Ok p' ->
      TimerQueryPool.pool_inv p' d) /\
  (forall slot_indices p',
      TimerQueryPool.RollbackPendingQuerySlots device slot_indices p = Ok p' ->
      TimerQueryPool.pool_inv p' d).
Proof.
  intros Hinv. repeat split.
  - apply NextReadyQuerySlot_returns. exact Hinv.
  - intros slot p'. apply NextReadyQuerySlot_inv. exact Hinv.
  - intros slot_indices p'. apply ResetQuerySlotsInternal_inv. exact Hinv.
  - intros slot_indices p'. apply ResetQuerySlotsInternal_inv. exact Hinv.
Qed.

Lemma fresh_pool_inv : TimerQueryPool.pool_inv fresh_pool the_device.
Proof.
  apply (InitializeTimerQueryPool_inv the_device (VK_SUCCESS, the_query_pool)
           (TimerQueryPool.new 4)).
  vm_compute. reflexivity.
Qed.

Lemma slot_pool_operations_preserve_invariant_witness :
  exists p',
    TimerQueryPool.NextReadyQuerySlot the_device fresh_pool = Ok (Some 3, p') /\
    TimerQueryPool.device_to_free_slots_ p' !! the_device = Some [0; 1; 2] /\
    TimerQueryPool.pool_inv p' the_device.
Proof.
  eexists. split; [vm_compute; reflexivity|]. split; [vm_compute; reflexivity|].
  destruct (slot_pool_operations_preserve_invariant fresh_pool the_device
              the_device fresh_pool_inv) as (_ & Hacquire & _).
  apply (Hacquire (Some 3)). vm_compute. reflexivity.
Defined.


(** ** Resetting a command buffer *)

Lemma elem_of_state_slots (state : CommandBufferState.t) (slot : N) :
  slot ∈ @state_slots state <-> references state slot.
Proof.
  unfold state_slots, references, marker_slots.
  rewrite !elem_of_app, list_elem_of_omap.
  destruct (CommandBufferState.command_buffer_begin_slot_index state) as [b|],
           (CommandBufferState.command_buffer_end_slot_index state) as [e|];
    rewrite ?list_elem_of_singleton, ?elem_of_nil;
    intuition (try congruence; auto).
Qed.

Section Rollback.
Import TimerQueryPool.

Lemma same_bookkeeping_refl (p : t) : same_bookkeeping p p.
Proof. repeat split. Qed.

Lemma reset_one_rollback (device : VkDevice) (i : N) (p q p' : t) :
  same_bookkeeping p q ->
  reset_one device false i p = Ok p' ->
  exists q' query_pool,
    reset_one device true i q = Ok q' /\
    same_bookkeeping p' q' /\
    driver_calls q' = driver_calls q /\
    device_to_query_pool_ p !! device = Some query_pool /\
    device_to_query_pool_ p' = device_to_query_pool_ p /\
    driver_calls p' = driver_calls p ++ [ResetQueryPoolEXT device query_pool i 1].
Proof.
  intros (Hn & Hq & Hs & Hf) Hcall. unfold reset_one in *.
  rewrite <- Hn, <- Hs, <- Hf. inv_Ok Hcall.
  unfold map_at at 1 2. rewrite Ha, Ha0. simpl.
  rewrite Ha1. simpl.
  destruct (a !! N.to_nat i) as [st|]; [|discriminate].
  injection Ha2 as <-. simpl. rewrite Ha3. simpl.
  injection Hcall as <-. simpl in Ha4.
  eexists _, a4. split; [reflexivity|]. unfold same_bookkeeping. simpl.
  rewrite Hn, Hs, Hf. repeat split; congruence.
Qed.

(* The calls that ResetQuerySlots sends to the driver for [slot_indices]. *)
Lemma reset_loop_rollback (device : VkDevice) (slot_indices : list N) (p q p' : t) :
  same_bookkeeping p q ->
  reset_loop device false slot_indices p = Ok p' ->
  exists q',
    reset_loop device true slot_indices q = Ok q' /\
    same_bookkeeping p' q' /\
    driver_calls q' = driver_calls q /\
    device_to_query_pool_ p' = device_to_query_pool_ p /\
    forall query_pool,
      device_to_query_pool_ p !! device = Some query_pool ->
      driver_calls p' =
      driver_calls p ++
        ((fun i => ResetQueryPoolEXT device query_pool i 1) <$> slot_indices).
Proof.
  revert p q. induction slot_indices as [|i rest IH]; simpl; intros p q Hpq Hcall.
  - injection Hcall as <-. exists q. rewrite app_nil_r. auto.
  - inv_Ok Hcall.
    destruct (reset_one_rollback _ _ _ _ _ Hpq Ha)
      as (q1 & qp & Hq1 & Hsame & Hd & Hqp & Hpools & Hd').
    destruct (IH _ _ Hsame Hcall) as (q' & Hq' & Hsame' & Hdq & Hpools' & Hcalls).
    exists q'. rewrite Hq1. simpl. split; [exact Hq'|]. split; [exact Hsame'|].
    split; [congruence|]. split; [congruence|].
    intros query_pool Hquery. assert (query_pool = qp) as -> by congruence.
    rewrite (Hcalls qp) by congruence. rewrite Hd', <- app_assoc. reflexivity.
Qed.

Lemma rollback_makes_no_driver_call (device : VkDevice) (slot_indices : list N)
    (p p' : t) :
  reset_loop device true slot_indices p = Ok p' ->
  driver_calls p' = driver_calls p.
Proof.
  revert p. induction slot_indices as [|i rest IH]; simpl; intros p Hcall.
  - congruence.
  - inv_Ok Hcall. rewrite (IH _ Hcall). unfold reset_one in Ha. inv_Ok Ha.
    injection Ha as <-. reflexivity.
Qed.

(* The converse of [reset_one_rollback]: where a rollback returns and the
   device has a query pool, so does a reset. *)
Lemma reset_one_reset (device : VkDevice) (i : N) (p q q' : t)
    (query_pool : VkQueryPool) :
  same_bookkeeping p q ->
  device_to_query_pool_ p !! device = Some query_pool ->
  reset_one device true i q = Ok q' ->
  exists p',
    reset_one device false i p = Ok p' /\
    same_bookkeeping p' q' /\
    device_to_query_pool_ p' = device_to_query_pool_ p /\
    driver_calls p' = driver_calls p ++ [ResetQueryPoolEXT device query_pool i 1].
Proof.
  intros (Hn & Hq & Hs & Hf) Hpool Hcall. unfold reset_one in *.
  rewrite Hn, Hs, Hf. inv_Ok Hcall.
  rewrite (proj2 (map_at_Ok _ _ _) Ha). simpl.
  rewrite (proj2 (map_at_Ok _ _ _) Ha0). simpl.
  rewrite Ha1. simpl.
  destruct (a !! N.to_nat i) as [st|]; [|discriminate].
  injection Ha2 as <-. simpl. rewrite Ha3. simpl.
  injection Hcall as <-. rewrite (proj2 (map_at_Ok _ _ _) Hpool). simpl.
  eexists. split; [reflexivity|]. unfold same_bookkeeping. simpl.
  rewrite Hn, Hs, Hf. repeat split; congruence.
Qed.

Lemma reset_loop_reset (device : VkDevice) (slot_indices : list N) (p q q' : t)
    (query_pool : VkQueryPool) :
  same_bookkeeping p q ->
  device_to_query_pool_ p !! device = Some query_pool ->
  reset_loop device true slot_indices q = Ok q' ->
  exists p',
    reset_loop device false slot_indices p = Ok p' /\
    same_bookkeeping p' q' /\
    driver_calls p' =
    driver_calls p ++
      ((fun i => ResetQueryPoolEXT device query_pool i 1) <$> slot_indices).
Proof.
  revert p q. induction slot_indices as [|i rest IH]; simpl;
    intros p q Hpq Hpool Hcall.
  - injection Hcall as <-. exists p. rewrite app_nil_r. auto.
  - inv_Ok Hcall.
    destruct (reset_one_reset _ _ _ _ _ _ Hpq Hpool Ha)
      as (p1 & Hp1 & Hsame & Hpools & Hd).
    destruct (IH p1 a Hsame ltac:(rewrite Hpools; exact Hpool) Hcall)
      as (p' & Hp' & Hsame' & Hd').
    exists p'. rewrite Hp1. simpl. split; [exact Hp'|]. split; [exact Hsame'|].
    rewrite Hd', Hd, <- app_assoc. reflexivity.
Qed.

(* With the device's two vectors in place, ResetQuerySlotsInternal is its
   loop: the early return on an empty list changes nothing either. *)
Lemma ResetQuerySlotsInternal_loop (device : VkDevice) (slot_indices : list N)
    (rollback_only : bool) (p : t) (slots : list SlotState) (free_slots : list N) :
  device_to_query_slots_ p !! device = Some slots ->
  device_to_free_slots_ p !! device = Some free_slots ->
  ResetQuerySlotsInternal device slot_indices rollback_only p
  = reset_loop device rollback_only slot_indices p.
Proof.
  intros Hs Hf. unfold ResetQuerySlotsInternal.
  destruct slot_indices as [|i rest]; [reflexivity|].
  rewrite (contains_Some _ _ _ Hs). unfold map_at. rewrite Hs, Hf. reflexivity.
Qed.

(* What a rollback of distinct pending slots leaves: every slot of the list
   ready, the other slots as they were, the list appended to the free
   list, and the calls to the driver as they were. *)
Lemma reset_loop_rollback_effect (device : VkDevice) (slot_indices : list N)
    (p : t) (slots : list SlotState) (free_slots : list N) :
  device_to_query_slots_ p !! device = Some slots ->
  device_to_free_slots_ p !! device = Some free_slots ->
  NoDup slot_indices ->
  (forall i, i ∈ slot_indices ->
     i < num_timer_query_slots_ p /\
     slots !! N.to_nat i = Some kQueryPendingOnGpu) ->
  exists slots',
    reset_loop device true slot_indices p
    = Ok (mk (num_timer_query_slots_ p) (device_to_query_pool_ p)
             (<[device := slots']> (device_to_query_slots_ p))
             (<[device := free_slots ++ slot_indices]> (device_to_free_slots_ p))
             (driver_calls p)) /\
    length slots' = length slots /\
    (forall i, i ∈ slot_indices ->
       slots' !! N.to_nat i = Some kReadyForQueryIssue) /\
    (forall i, i ∉ slot_indices -> slots' !! N.to_nat i = slots !! N.to_nat i).
Proof.
  revert p slots free_slots.
  induction slot_indices as [|i rest IH];
    intros p slots free_slots Hs Hf Hnd Hpend.
  - exists slots.
    split; [|split; [reflexivity|split; [|reflexivity]];
             intros i Hi; apply elem_of_nil in Hi; contradiction].
    simpl. f_equal. destruct p; simpl in *. rewrite app_nil_r.
    rewrite !insert_id by assumption. reflexivity.
  - apply NoDup_cons in Hnd as [Hi Hnd].
    destruct (Hpend i) as [Hlt Hst]; [left|].
    assert (Hone : reset_one device true i p
                   = Ok (set_slots device
                           (<[N.to_nat i := kReadyForQueryIssue]> slots)
                           (free_slots ++ [i]) p)).
    { unfold reset_one, map_at. rewrite Hs, Hf. simpl.
      rewrite bool_decide_eq_true_2 by exact Hlt. simpl. rewrite Hst. simpl.
      reflexivity. }
    destruct (IH (set_slots device
                    (<[N.to_nat i := kReadyForQueryIssue]> slots)
                    (free_slots ++ [i]) p)
                 (<[N.to_nat i := kReadyForQueryIssue]> slots)
                 (free_slots ++ [i]))
      as (slots' & Hloop & Hlen & Hready & Hother).
    + simpl. apply lookup_insert_eq.
    + simpl. apply lookup_insert_eq.
    + exact Hnd.
    + intros j Hj. destruct (Hpend j) as [Hjlt Hjst]; [right; exact Hj|].
      split; [exact Hjlt|].
      rewrite list_lookup_insert_ne; [exact Hjst|].
      intros Heq. apply N2Nat.inj in Heq. subst. contradiction.
    + exists slots'. split; [|split; [|split]].
      * simpl. rewrite Hone. simpl. rewrite Hloop. simpl.
        rewrite !insert_insert_eq, <- app_assoc. reflexivity.
      * rewrite Hlen, length_insert. reflexivity.
      * intros j Hj. apply elem_of_cons in Hj as [->|Hj];
          [|apply Hready; exact Hj].
        rewrite (Hother i Hi). apply list_lookup_insert_eq.
        eapply lookup_lt_Some. exact Hst.
      * intros j Hj. apply not_elem_of_cons in Hj as [Hne Hj].
        rewrite (Hother j Hj). apply list_lookup_insert_ne.
        intros Heq. apply N2Nat.inj in Heq. congruence.
Qed.

End Rollback.

(** C8. [ResetCommandBuffer] on a buffer without a record changes nothing.
    On a buffer that has a record (and is registered with its device, as
    every buffer handed to TrackCommandBuffers is) it passes the slots that
    the record references, each once and in the order begin slot, end slot,
    slots of the markers, to [RollbackPendingQuerySlots], and erases the
    record. With the slot pool of the layer, when these slots are distinct
    and pending, the reset returns: the record is gone, every referenced
    slot is ready, the other slots are as they were, the referenced slots
    stand at the end of the free list, and neither the calls that the pool
    has made to the driver nor any other field of the tracker has changed.
    On the slot pool itself, a rollback does the bookkeeping of
    [ResetQuerySlots] (same states, same free list) and sends nothing to
    the driver, where [ResetQuerySlots] sends one vkResetQueryPoolEXT per
    slot; and on a device that has a query pool the one returns where the
    other does. *)
Theorem ResetCommandBuffer_rolls_back
    {D P : Type} `{!DispatchTable D} `{!TimerQueryPoolT P}
    (t : SubmissionTracker D P) (command_buffer : VkCommandBuffer) :
  (command_buffer_to_state_ t !! command_buffer = None ->
   ResetCommandBuffer command_buffer t = Ok t) /\
  (forall state device,
      command_buffer_to_state_ t !! command_buffer = Some state ->
      command_buffer_to_device_ t !! command_buffer = Some device ->
      (forall slot,
          slot ∈ option_list (CommandBufferState.command_buffer_begin_slot_index state)
                 ++ option_list (CommandBufferState.command_buffer_end_slot_index state)
                 ++ omap Marker.slot_index (CommandBufferState.markers state)
          <-> references state slot) /\
      ResetCommandBuffer command_buffer t =
        (pool ← RollbackPendingQuerySlots device
                  (option_list (CommandBufferState.command_buffer_begin_slot_index state)
                   ++ option_list (CommandBufferState.command_buffer_end_slot_index state)
                   ++ omap Marker.slot_index (CommandBufferState.markers state))
                  (timer_query_pool_ t);
         Ok (mkTracker (max_local_marker_depth_per_command_buffer_ t)
               (pool_to_command_buffers_ t) (command_buffer_to_device_ t)
               (delete command_buffer (command_buffer_to_state_ t))
               (queue_to_submissions_ t) (queue_to_markers_ t)
               (dispatch_table_ t) pool))) /\
  (forall (tracker : SubmissionTracker D TimerQueryPool.t) state device
          slots free_slots,
      command_buffer_to_state_ tracker !! command_buffer = Some state ->
      command_buffer_to_device_ tracker !! command_buffer = Some device ->
      TimerQueryPool.device_to_query_slots_ (timer_query_pool_ tracker) !! device
      = Some slots ->
      TimerQueryPool.device_to_free_slots_ (timer_query_pool_ tracker) !! device
      = Some free_slots ->
      NoDup (option_list (CommandBufferState.command_buffer_begin_slot_index state)
             ++ option_list (CommandBufferState.command_buffer_end_slot_index state)
             ++ omap Marker.slot_index (CommandBufferState.markers state)) ->
      (forall slot,
          references state slot ->
          slot < TimerQueryPool.num_timer_query_slots_ (timer_query_pool_ tracker) /\
          slots !! N.to_nat slot = Some TimerQueryPool.kQueryPendingOnGpu) ->
      exists slots',
        ResetCommandBuffer command_buffer tracker
        = Ok (mkTracker (max_local_marker_depth_per_command_buffer_ tracker)
                (pool_to_command_buffers_ tracker)
                (command_buffer_to_device_ tracker)
                (delete command_buffer (command_buffer_to_state_ tracker))
                (queue_to_submissions_ tracker) (queue_to_markers_ tracker)
                (dispatch_table_ tracker)
                (TimerQueryPool.mk
                   (TimerQueryPool.num_timer_query_slots_ (timer_query_pool_ tracker))
                   (TimerQueryPool.device_to_query_pool_ (timer_query_pool_ tracker))
                   (<[device := slots']>
                      (TimerQueryPool.device_to_query_slots_ (timer_query_pool_ tracker)))
                   (<[device :=
                        free_slots
                        ++ option_list
                             (CommandBufferState.command_buffer_begin_slot_index state)
                        ++ option_list
                             (CommandBufferState.command_buffer_end_slot_index state)
                        ++ omap Marker.slot_index (CommandBufferState.markers state)]>
                      (TimerQueryPool.device_to_free_slots_ (timer_query_pool_ tracker)))
                   (TimerQueryPool.driver_calls (timer_query_pool_ tracker)))) /\
        length slots' = length slots /\
        (forall slot,
            references state slot ->
            slots' !! N.to_nat slot = Some TimerQueryPool.kReadyForQueryIssue) /\
        (forall slot,
            ~ references state slot ->
            slots' !! N.to_nat slot = slots !! N.to_nat slot)) /\
  (forall (p p_reset : TimerQueryPool.t) device slots,
      TimerQueryPool.ResetQuerySlots device slots p = Ok p_reset ->
      exists p_rollback,
        TimerQueryPool.RollbackPendingQuerySlots device slots p = Ok p_rollback /\
        same_bookkeeping p_reset p_rollback /\
        TimerQueryPool.driver_calls p_rollback = TimerQueryPool.driver_calls p /\
        forall query_pool,
          TimerQueryPool.device_to_query_pool_ p !! device = Some query_pool ->
          TimerQueryPool.driver_calls p_reset =
          TimerQueryPool.driver_calls p ++
            ((fun slot => TimerQueryPool.ResetQueryPoolEXT device query_pool slot 1)
               <$> slots)) /\
  (forall (p p_rollback : TimerQueryPool.t) device slots query_pool,
      TimerQueryPool.device_to_query_pool_ p !! device = Some query_pool ->
      TimerQueryPool.RollbackPendingQuerySlots device slots p = Ok p_rollback ->
      TimerQueryPool.driver_calls p_rollback = TimerQueryPool.driver_calls p /\
      exists p_reset,
        TimerQueryPool.ResetQuerySlots device slots p = Ok p_reset /\
        same_bookkeeping p_reset p_rollback /\
        TimerQueryPool.driver_calls p_reset =
        TimerQueryPool.driver_calls p ++
          ((fun slot => TimerQueryPool.ResetQueryPoolEXT device query_pool slot 1)
             <$> slots)).
Proof.
  split; [|split; [|split; [|split]]].
  - intros Hnone. unfold ResetCommandBuffer.
    apply contains_false in Hnone. rewrite Hnone. reflexivity.
  - intros state device Hstate Hdevice.
    split; [apply elem_of_state_slots|].
    unfold ResetCommandBuffer. rewrite (contains_Some _ _ _ Hstate). simpl.
    unfold map_at. rewrite Hstate, Hdevice. reflexivity.
  - intros tracker state device slots free_slots Hstate Hdevice Hs Hf Hnd Hpend.
    destruct (reset_loop_rollback_effect device (state_slots state)
                (timer_query_pool_ tracker) slots free_slots Hs Hf Hnd)
      as (slots' & Hloop & Hlen & Hready & Hother).
    { intros slot Hslot. apply Hpend, elem_of_state_slots. exact Hslot. }
    exists slots'. split; [|split; [exact Hlen|split]].
    + unfold ResetCommandBuffer. rewrite (contains_Some _ _ _ Hstate). simpl.
      unfold map_at. rewrite Hstate, Hdevice. simpl.
      unfold TimerQueryPool.RollbackPendingQuerySlots.
      rewrite (ResetQuerySlotsInternal_loop _ _ _ _ _ _ Hs Hf), Hloop.
      reflexivity.
    + intros slot Hslot. apply Hready, elem_of_state_slots. exact Hslot.
    + intros slot Hslot. apply Hother. intros Hin. apply Hslot.
      apply elem_of_state_slots. exact Hin.
  - intros p p_reset device slots Hreset.
    unfold TimerQueryPool.ResetQuerySlots, TimerQueryPool.RollbackPendingQuerySlots,
      TimerQueryPool.ResetQuerySlotsInternal in *.
    destruct slots as [|i rest].
    + injection Hreset as <-. exists p. split; [reflexivity|].
      split; [apply same_bookkeeping_refl|]. simpl. rewrite app_nil_r. auto.
    + inv_Ok Hreset.
      destruct (reset_loop_rollback _ _ _ _ _ (same_bookkeeping_refl p) Hreset)
        as (q' & Hq' & Hsame & Hd & _ & Hcalls).
      exists q'. rewrite Ha. simpl. unfold map_at. rewrite Ha0, Ha1. simpl.
      auto.
  - intros p p_rollback device slots query_pool Hpool Hrollback.
    unfold TimerQueryPool.ResetQuerySlots, TimerQueryPool.RollbackPendingQuerySlots,
      TimerQueryPool.ResetQuerySlotsInternal in *.
    destruct slots as [|i rest].
    + injection Hrollback as <-. split; [reflexivity|]. exists p.
      split; [reflexivity|]. split; [apply same_bookkeeping_refl|].
      simpl. rewrite app_nil_r. reflexivity.
    + inv_Ok Hrollback.
      split; [exact (rollback_makes_no_driver_call _ _ _ _ Hrollback)|].
      destruct (reset_loop_reset _ _ _ _ _ _ (same_bookkeeping_refl p) Hpool
                  Hrollback) as (p' & Hp' & Hsame & Hcalls).
      exists p'. rewrite Ha. simpl. unfold map_at. rewrite Ha0, Ha1. simpl.
      auto.
Qed.


(** ** Submitting while not capturing *)

Section NotCapturing.
Context {D P : Type} `{!DispatchTable D} `{!TimerQueryPoolT P}.





End NotCapturing.


(** ** Debug markers and the depth filter *)

Section Markers.
Context {D P : Type} `{!DispatchTable D} `{!TimerQueryPoolT P}.

Lemma RecordTimestamp_Ok (cb : VkCommandBuffer) (stage : VkPipelineStageFlagBits)
    (t t1 : SubmissionTracker D P) (slot : N) :
  RecordTimestamp cb stage t = Ok (slot, t1) <->
  exists device query_pool pool',
    command_buffer_to_device_ t !! cb = Some device /\
    GetQueryPool device (timer_query_pool_ t) = Ok query_pool /\
    NextReadyQuerySlot device (timer_query_pool_ t) = Ok (Some slot, pool') /\
    t1 = set_dispatch (CmdWriteTimestamp cb stage query_pool slot (dispatch_table_ t))
           (set_pool pool' t).
Proof.
  unfold RecordTimestamp. split.
  - intros Hrun. inv_Ok Hrun. destruct a2 as [found pool'].
    inv_Ok Hrun. destruct found as [s|]; [|discriminate].
    injection Ha3 as <-. injection Hrun as <- <-. eauto 10.
  - intros (device & query_pool & pool' & Hdev & Hqp & Hslot & ->).
    rewrite (contains_Some _ _ _ Hdev). simpl. unfold map_at. rewrite Hdev. simpl.
    rewrite Hqp. simpl. rewrite Hslot. reflexivity.
Qed.

Lemma attach_slot_to_last_marker_app (cb : VkCommandBuffer) (slot : N)
    (t : SubmissionTracker D P) (state : CommandBufferState.t)
    (markers : list Marker.t) (marker : Marker.t) :
  command_buffer_to_state_ t !! cb = Some state ->
  CommandBufferState.markers state = markers ++ [marker] ->
  attach_slot_to_last_marker cb slot t =
  Ok (set_states
        (<[cb := CommandBufferState.set_markers
                   (markers ++ [Marker.set_slot_index (Some slot) marker]) state]>
           (command_buffer_to_state_ t)) t).
Proof.
  intros Hstate Hmarkers. unfold attach_slot_to_last_marker.
  rewrite (contains_Some _ _ _ Hstate). simpl. unfold map_at. rewrite Hstate. simpl.
  unfold set_back_slot_index. rewrite Hmarkers, pop_back_app. reflexivity.
Qed.

Lemma too_many_markers_zero (n : N) : too_many_markers 0 n = false.
Proof. reflexivity. Qed.

Lemma too_many_markers_above (max_depth n : N) :
  0 < max_depth -> max_depth < n -> too_many_markers max_depth n = true.
Proof.
  intros H0 Hn. unfold too_many_markers.
  rewrite (proj2 (N.ltb_lt _ _) H0), (proj2 (N.ltb_lt _ _) Hn). reflexivity.
Qed.

(* The marker hooks when they do take a timestamp. *)
Lemma MarkDebugMarkerBegin_capturing (t : SubmissionTracker D P)
    (cb : VkCommandBuffer) (state : CommandBufferState.t) (text : string)
    (color : Color) :
  command_buffer_to_state_ t !! cb = Some state ->
  too_many_markers (max_local_marker_depth_per_command_buffer_ t)
    (uint32_incr (CommandBufferState.local_marker_stack_size state)) = false ->
  MarkDebugMarkerBegin true cb text color t =
  ('(slot, t1) ← RecordTimestamp cb VK_PIPELINE_STAGE_TOP_OF_PIPE_BIT t;
   Ok (set_states
         (<[cb := after_begin_marker state text color (Some slot)]>
            (command_buffer_to_state_ t)) t1)).
Proof.
  intros Hstate Hdepth. unfold MarkDebugMarkerBegin.
  rewrite (contains_Some _ _ _ Hstate). simpl. unfold map_at at 1.
  rewrite Hstate. simpl. rewrite Hdepth. simpl.
  unfold RecordTimestamp; simpl.
  destruct (CHECK (contains (command_buffer_to_device_ t) cb)); [|reflexivity]. simpl.
  destruct (map_at (command_buffer_to_device_ t) cb) as [device|]; [|reflexivity]. simpl.
  destruct (GetQueryPool device (timer_query_pool_ t)) as [qp|]; [|reflexivity]. simpl.
  destruct (NextReadyQuerySlot device (timer_query_pool_ t)) as [[[slot|] pool']|];
    try reflexivity. simpl.
  erewrite attach_slot_to_last_marker_app;
    [|simpl; apply lookup_insert_eq|simpl; reflexivity].
  simpl. rewrite insert_insert_eq. reflexivity.
Qed.

Lemma MarkDebugMarkerEnd_capturing (t : SubmissionTracker D P)
    (cb : VkCommandBuffer) (state : CommandBufferState.t) :
  command_buffer_to_state_ t !! cb = Some state ->
  too_many_markers (max_local_marker_depth_per_command_buffer_ t)
    (CommandBufferState.local_marker_stack_size state) = false ->
  MarkDebugMarkerEnd true cb t =
  ('(slot, t1) ← RecordTimestamp cb VK_PIPELINE_STAGE_BOTTOM_OF_PIPE_BIT t;
   Ok (set_states
         (<[cb := after_end_marker state (Some slot)]>
            (command_buffer_to_state_ t)) t1)).
Proof.
  intros Hstate Hdepth. unfold MarkDebugMarkerEnd.
  rewrite (contains_Some _ _ _ Hstate). simpl. unfold map_at at 1.
  rewrite Hstate. simpl. rewrite Hdepth. simpl.
  unfold RecordTimestamp; simpl.
  destruct (CHECK (contains (command_buffer_to_device_ t) cb)); [|reflexivity]. simpl.
  destruct (map_at (command_buffer_to_device_ t) cb) as [device|]; [|reflexivity]. simpl.
  destruct (GetQueryPool device (timer_query_pool_ t)) as [qp|]; [|reflexivity]. simpl.
  destruct (NextReadyQuerySlot device (timer_query_pool_ t)) as [[[slot|] pool']|];
    try reflexivity. simpl.
  unfold after_end_marker.
  destruct (CommandBufferState.local_marker_stack_size state =? 0) eqn:Hsize; simpl.
  - apply N.eqb_eq in Hsize.
    erewrite attach_slot_to_last_marker_app;
      [|simpl; apply lookup_insert_eq|simpl; reflexivity].
    simpl. rewrite insert_insert_eq. unfold CommandBufferState.set_markers. simpl.
    rewrite Hsize. reflexivity.
  - erewrite attach_slot_to_last_marker_app;
      [|simpl; apply lookup_insert_eq|simpl; reflexivity].
    simpl. rewrite insert_insert_eq. reflexivity.
Qed.

(** C9. Let [state] be the record of a command buffer and D the configured
    maximal depth. With D = 0, a begin-marker or end-marker hook that runs
    while capturing and returns has taken a slot from the pool and left it
    on the entry it appended; it does return whenever the buffer is
    registered with a device whose pool hands out a slot. With D > 0, a
    begin marker whose depth (the counter after the increment) exceeds D, or
    an end marker whose depth (the counter before the decrement) exceeds D,
    takes no slot, whatever the capture flag: the pool and the driver are
    untouched, the entry is appended without a slot, and the depth counter
    moves as for any other marker (one up on a begin, one down on an end). *)
Theorem marker_slots_follow_depth_filter
    (t : SubmissionTracker D P) (cb : VkCommandBuffer)
    (state : CommandBufferState.t) (text : string) (color : Color) :
  command_buffer_to_state_ t !! cb = Some state ->
  (max_local_marker_depth_per_command_buffer_ t = 0 ->
   (forall t',
       MarkDebugMarkerBegin true cb text color t = Ok t' ->
       exists device slot pool',
         command_buffer_to_device_ t !! cb = Some device /\
         NextReadyQuerySlot device (timer_query_pool_ t) = Ok (Some slot, pool') /\
         timer_query_pool_ t' = pool' /\
         command_buffer_to_state_ t' !! cb
         = Some (after_begin_marker state text color (Some slot))) /\
   (forall t',
       MarkDebugMarkerEnd true cb t = Ok t' ->
       exists device slot pool',
         command_buffer_to_device_ t !! cb = Some device /\
         NextReadyQuerySlot device (timer_query_pool_ t) = Ok (Some slot, pool') /\
         timer_query_pool_ t' = pool' /\
         command_buffer_to_state_ t' !! cb
         = Some (after_end_marker state (Some slot))) /\
   (forall device query_pool slot pool',
       command_buffer_to_device_ t !! cb = Some device ->
       GetQueryPool device (timer_query_pool_ t) = Ok query_pool ->
       NextReadyQuerySlot device (timer_query_pool_ t) = Ok (Some slot, pool') ->
       (exists t', MarkDebugMarkerBegin true cb text color t = Ok t') /\
       (exists t', MarkDebugMarkerEnd true cb t = Ok t'))) /\
  (0 < max_local_marker_depth_per_command_buffer_ t ->
   forall is_capturing,
     (max_local_marker_depth_per_command_buffer_ t
      < (CommandBufferState.local_marker_stack_size state + 1) mod 2 ^ 32 ->
      MarkDebugMarkerBegin is_capturing cb text color t
      = Ok (set_states
              (<[cb := after_begin_marker state text color None]>
                 (command_buffer_to_state_ t)) t)) /\
     (max_local_marker_depth_per_command_buffer_ t
      < CommandBufferState.local_marker_stack_size state ->
      MarkDebugMarkerEnd is_capturing cb t
      = Ok (set_states
              (<[cb := after_end_marker state None]>
                 (command_buffer_to_state_ t)) t))).
Proof.
  intros Hstate. split.
  - intros Hmax.
    assert (Hb : too_many_markers (max_local_marker_depth_per_command_buffer_ t)
                   (uint32_incr (CommandBufferState.local_marker_stack_size state))
                 = false) by (rewrite Hmax; apply too_many_markers_zero).
    assert (He : too_many_markers (max_local_marker_depth_per_command_buffer_ t)
                   (CommandBufferState.local_marker_stack_size state)
                 = false) by (rewrite Hmax; apply too_many_markers_zero).
    rewrite (MarkDebugMarkerBegin_capturing t cb state text color Hstate Hb).
    rewrite (MarkDebugMarkerEnd_capturing t cb state Hstate He).
    split; [|split].
    + intros t' Hrun. inv_Ok Hrun. destruct a as [slot t1].
      injection Hrun as <-.
      apply RecordTimestamp_Ok in Ha
        as (device & query_pool & pool' & Hdev & _ & Hslot & ->).
      exists device, slot, pool'. simpl. rewrite lookup_insert_eq. auto.
    + intros t' Hrun. inv_Ok Hrun. destruct a as [slot t1].
      injection Hrun as <-.
      apply RecordTimestamp_Ok in Ha
        as (device & query_pool & pool' & Hdev & _ & Hslot & ->).
      exists device, slot, pool'. simpl. rewrite lookup_insert_eq. auto.
    + intros device query_pool slot pool' Hdev Hqp Hslot.
      split.
      * rewrite (proj2 (RecordTimestamp_Ok cb VK_PIPELINE_STAGE_TOP_OF_PIPE_BIT
                          t _ slot)) by eauto 10.
        simpl. eauto.
      * rewrite (proj2 (RecordTimestamp_Ok cb VK_PIPELINE_STAGE_BOTTOM_OF_PIPE_BIT
                          t _ slot)) by eauto 10.
        simpl. eauto.
  - intros Hmax is_capturing. split.
    + intros Hdepth.
      assert (Hmany :
        too_many_markers (max_local_marker_depth_per_command_buffer_ t)
          (uint32_incr (CommandBufferState.local_marker_stack_size state)) = true)
        by (apply too_many_markers_above; [exact Hmax|exact Hdepth]).
      unfold MarkDebugMarkerBegin.
      rewrite (contains_Some _ _ _ Hstate). simpl. unfold map_at.
      rewrite Hstate. simpl. rewrite Hmany, orb_true_r. reflexivity.
    + intros Hdepth. unfold MarkDebugMarkerEnd.
      rewrite (contains_Some _ _ _ Hstate). simpl. unfold map_at.
      rewrite Hstate. simpl.
      rewrite (too_many_markers_above _ _ Hmax Hdepth), orb_true_r.
      unfold after_end_marker.
      assert (Hnz : (CommandBufferState.local_marker_stack_size state =? 0) = false)
        by (apply N.eqb_neq; lia).
      rewrite Hnz. reflexivity.
Qed.

End Markers.


(** ** Tracking a command buffer twice *)

Lemma track_loop_devices (device : VkDevice) (cb : VkCommandBuffer)
    (command_buffers : list N) (associated : gset N) (devices : gmap N N) :
  cb ∈ command_buffers \/ devices !! cb = Some device ->
  (@track_loop device command_buffers associated devices).2 !! cb = Some device.
Proof.
  revert associated devices.
  induction command_buffers as [|c rest IH]; intros associated devices Hcb; simpl.
  - destruct Hcb as [Hcb|Hcb]; [inversion Hcb|exact Hcb].
  - apply IH. destruct Hcb as [Hcb|Hcb].
    + apply elem_of_cons in Hcb as [->|Hcb]; [|left; exact Hcb].
      right. apply lookup_insert_eq.
    + destruct (decide (c = cb)) as [->|Hne].
      * right. apply lookup_insert_eq.
      * right. rewrite lookup_insert_ne by exact Hne. exact Hcb.
Qed.

Lemma TrackCommandBuffers_returns {D P : Type} (t : SubmissionTracker D P)
    (device : VkDevice) (pool : VkCommandPool) (command_buffers : list N) :
  exists t',
    TrackCommandBuffers device pool command_buffers t = Ok t' /\
    forall cb, cb ∈ command_buffers ->
               command_buffer_to_device_ t' !! cb = Some device.
Proof.
  unfold TrackCommandBuffers.
  set (pools := if contains (pool_to_command_buffers_ t) pool
                then pool_to_command_buffers_ t
                else <[pool := ∅]> (pool_to_command_buffers_ t)).
  assert (Hpool : exists associated, pools !! pool = Some associated).
  { unfold pools. destruct (contains (pool_to_command_buffers_ t) pool) eqn:Hc.
    - apply contains_true in Hc as [associated Hc]. eauto.
    - exists ∅. apply lookup_insert_eq. }
  destruct Hpool as [associated Hpool]. unfold map_at. rewrite Hpool. simpl.
  pose proof (track_loop_devices device) as Hloop.
  destruct (track_loop device command_buffers associated
              (command_buffer_to_device_ t)) as [associated' devices'] eqn:Hrun.
  eexists. split; [reflexivity|]. intros cb Hcb. simpl.
  specialize (Hloop cb command_buffers associated (command_buffer_to_device_ t)
                (or_introl Hcb)).
  rewrite Hrun in Hloop. exact Hloop.
Qed.

(** C5 (the code departs from it). TrackCommandBuffers has no check: it
    returns normally on every input. Tracking a command buffer, then
    tracking the same buffer again, returns twice, and the second call
    re-registers the buffer, with the device of the second call. The test
    CannotTrackTheSameCommandBufferTwice expects the second call to die. *)
Theorem TrackCommandBuffers_twice_returns
    {D P : Type} (t : SubmissionTracker D P)
    (device device' : VkDevice) (pool : VkCommandPool) (cb : VkCommandBuffer) :
  exists t1 t2,
    TrackCommandBuffers device pool [cb] t = Ok t1 /\
    command_buffer_to_device_ t1 !! cb = Some device /\
    TrackCommandBuffers device' pool [cb] t1 = Ok t2 /\
    command_buffer_to_device_ t2 !! cb = Some device'.
Proof.
  destruct (TrackCommandBuffers_returns t device pool [cb]) as (t1 & Ht1 & Hd1).
  destruct (TrackCommandBuffers_returns t1 device' pool [cb]) as (t2 & Ht2 & Hd2).
  exists t1, t2. repeat split; try assumption.
  - apply Hd1. left.
  - apply Hd2. left.
Qed.


(** ** Submitting while capturing *)

Section Capturing.

Lemma submit_command_buffer_other (meta : SubmissionMetaInformation)
    (c cb : VkCommandBuffer)
    (states states' : gmap N CommandBufferState.t) (w w' : marker_walk)
    (submitted submitted' : list SubmittedCommandBuffer.t) :
  submit_command_buffer meta c (states, w, submitted) = Ok (states', w', submitted') ->
  c <> cb ->
  states' !! cb = states !! cb.
Proof.
  unfold submit_command_buffer. intros Hrun Hne. inv_Ok Hrun.
  injection Hrun as <- _ _. apply lookup_delete_ne. exact Hne.
Qed.

Lemma submit_command_buffer_without_end_slot (meta : SubmissionMetaInformation)
    (cb : VkCommandBuffer) (state : CommandBufferState.t)
    (states : gmap N CommandBufferState.t) (w : marker_walk)
    (submitted : list SubmittedCommandBuffer.t) :
  states !! cb = Some state ->
  CommandBufferState.command_buffer_end_slot_index state = None ->
  match walk_markers meta (CommandBufferState.markers state) w with
  | Ok _ => submit_command_buffer meta cb (states, w, submitted)
            = Fail BadOptionalAccess
  | Fail f => submit_command_buffer meta cb (states, w, submitted) = Fail f
  end.
Proof.
  intros Hstate Hend. unfold submit_command_buffer.
  rewrite (contains_Some _ _ _ Hstate). simpl. unfold map_at. rewrite Hstate. simpl.
  destruct (walk_markers meta (CommandBufferState.markers state) w); simpl;
    [rewrite Hend|]; reflexivity.
Qed.

Lemma submit_command_buffers_cons (meta : SubmissionMetaInformation)
    (c : VkCommandBuffer) (rest : list N)
    (acc : gmap N CommandBufferState.t * marker_walk * list SubmittedCommandBuffer.t) :
  submit_command_buffers meta (c :: rest) acc =
  submit_command_buffer meta c acc ≫= submit_command_buffers meta rest.
Proof. reflexivity. Qed.

Lemma submit_infos_loop_cons (meta : SubmissionMetaInformation)
    (submit : VkSubmitInfo) (rest : list VkSubmitInfo)
    (states : gmap N CommandBufferState.t) (w : marker_walk)
    (infos : list SubmitInfo.t) :
  submit_infos_loop meta (submit :: rest) (states, w, infos) =
  submit_command_buffers meta submit (states, w, []) ≫=
    (fun '(states, w, submitted) =>
       submit_infos_loop meta rest (states, w, infos ++ [SubmitInfo.mk submitted])).
Proof. reflexivity. Qed.

Lemma submit_command_buffers_without_end_slot (meta : SubmissionMetaInformation)
    (cb : VkCommandBuffer) (state : CommandBufferState.t)
    (command_buffers : list N) :
  CommandBufferState.command_buffer_end_slot_index state = None ->
  forall states w submitted,
    states !! cb = Some state ->
    match submit_command_buffers meta command_buffers (states, w, submitted) with
    | Ok (states', _, _) => (cb ∉ command_buffers) /\ states' !! cb = Some state
    | Fail _ => True
    end.
Proof.
  intros Hend. induction command_buffers as [|c rest IH];
    intros states w submitted Hstate.
  - split; [apply not_elem_of_nil|exact Hstate].
  - rewrite submit_command_buffers_cons.
    destruct (decide (c = cb)) as [->|Hne].
    + pose proof (submit_command_buffer_without_end_slot meta cb state states w
                    submitted Hstate Hend) as Hfail.
      destruct (walk_markers meta (CommandBufferState.markers state) w);
        rewrite Hfail; exact I.
    + destruct (submit_command_buffer meta c (states, w, submitted))
        as [[[states1 w1] submitted1]|] eqn:Hrun; simpl; [|exact I].
      pose proof (submit_command_buffer_other _ _ cb _ _ _ _ _ _ Hrun Hne) as Hsame.
      specialize (IH states1 w1 submitted1). rewrite Hsame in IH.
      specialize (IH Hstate).
      destruct (submit_command_buffers meta rest (states1, w1, submitted1))
        as [[[states2 w2] submitted2]|]; [|exact I].
      destruct IH as [Hnotin Hlook]. split; [|exact Hlook].
      rewrite not_elem_of_cons. split; [congruence|exact Hnotin].
Qed.

Lemma submit_infos_loop_without_end_slot (meta : SubmissionMetaInformation)
    (cb : VkCommandBuffer) (state : CommandBufferState.t)
    (submits : list VkSubmitInfo) :
  CommandBufferState.command_buffer_end_slot_index state = None ->
  forall states w infos,
    states !! cb = Some state ->
    match submit_infos_loop meta submits (states, w, infos) with
    | Ok _ => cb ∉ concat submits
    | Fail _ => True
    end.
Proof.
  intros Hend. induction submits as [|submit rest IH];
    intros states w infos Hstate.
  - apply not_elem_of_nil.
  - rewrite submit_infos_loop_cons.
    pose proof (submit_command_buffers_without_end_slot meta cb state submit Hend
                  states w [] Hstate) as Hsubmit.
    destruct (submit_command_buffers meta submit (states, w, []))
      as [[[states1 w1] submitted1]|]; simpl; [|exact I].
    destruct Hsubmit as [Hnotin Hlook].
    specialize (IH states1 w1 (infos ++ [SubmitInfo.mk submitted1]) Hlook).
    destruct (submit_infos_loop meta rest
                (states1, w1, infos ++ [SubmitInfo.mk submitted1])); [|exact I].
    simpl. rewrite not_elem_of_app. split; assumption.
Qed.

End Capturing.

(** C1 (the code departs from it). A capturing post-submit that references a
    command buffer whose record has no end slot does not drop that buffer
    and go on: it never returns. DoPostSubmitQueue reads the end slot with
    [.value()], which throws on the empty optional (when nothing else has
    failed before, for instance on a marker of the buffer). *)
Theorem capturing_submit_without_end_slot_fails
    {D P : Type} `{!TimerQueryPoolT P}
    (t : SubmissionTracker D P) (now : N) (tid : Z)
    (queue : VkQueue) (submits : list VkSubmitInfo) (pre_submit_timestamp : N)
    (cb : VkCommandBuffer) (state : CommandBufferState.t) :
  cb ∈ concat submits ->
  command_buffer_to_state_ t !! cb = Some state ->
  CommandBufferState.command_buffer_end_slot_index state = None ->
  (exists f,
      DoPostSubmitQueue true now tid queue submits (Some pre_submit_timestamp) t
      = Fail f) /\
  (submits = [[cb]] ->
   CommandBufferState.markers state = [] ->
   DoPostSubmitQueue true now tid queue submits (Some pre_submit_timestamp) t
   = Fail BadOptionalAccess).
Proof.
  intros Hin Hstate Hend. unfold DoPostSubmitQueue, DoPostSubmitQueue_capturing.
  set (queue_markers := if contains (queue_to_markers_ t) queue
                        then queue_to_markers_ t
                        else <[queue := []]> (queue_to_markers_ t)).
  assert (Hstack : exists stack, queue_markers !! queue = Some stack).
  { unfold queue_markers. destruct (contains (queue_to_markers_ t) queue) eqn:Hc.
    - apply contains_true in Hc as [stack Hc]. eauto.
    - exists []. apply lookup_insert_eq. }
  destruct Hstack as [stack Hstack].
  assert (Hat : map_at queue_markers queue = Ok stack)
    by (apply map_at_Ok; exact Hstack).
  rewrite (contains_Some _ _ _ Hstack), !Hat. cbn [CHECK mbind result_bind].
  split.
  - pose proof (submit_infos_loop_without_end_slot
                  (mkMeta pre_submit_timestamp now tid) cb state submits Hend
                  (command_buffer_to_state_ t) (mkWalk stack [] 0) [] Hstate) as Hloop.
    destruct (submit_infos_loop (mkMeta pre_submit_timestamp now tid) submits
                (command_buffer_to_state_ t, mkWalk stack [] 0, [])) as [r|f].
    + contradiction.
    + exists f. reflexivity.
  - intros -> Hmarkers.
    pose proof (submit_command_buffer_without_end_slot
                  (mkMeta pre_submit_timestamp now tid) cb state
                  (command_buffer_to_state_ t) (mkWalk stack [] 0) []
                  Hstate Hend) as Hfail.
    rewrite Hmarkers in Hfail. cbn [walk_markers] in Hfail.
    rewrite submit_infos_loop_cons, submit_command_buffers_cons, Hfail.
    reflexivity.
Qed.

Lemma capturing_submit_without_end_slot_fails_witness :
  DoPostSubmitQueue true 50 3%Z the_queue [[1]] (PreSubmission true 40)
    recorded_before_capture_tracker
  = Fail BadOptionalAccess.
Proof.
  apply (proj2 (capturing_submit_without_end_slot_fails
                  recorded_before_capture_tracker 50 3%Z the_queue [[1]] 40 1
                  CommandBufferState.empty
                  ltac:(simpl; left) ltac:(vm_compute; reflexivity) eq_refl));
    reflexivity.
Defined.


(** C10 (the code departs from it). The walk of a capturing post-submit
    reaches an end entry while the marker stack of the queue is empty, and
    then calls [top()] and [pop()] on the empty stack, whenever the begin of
    the marker was not pushed before: in the scenario
    [capture_started_inside_marker] every hook returns, the queue has no
    open marker, and the capturing post-submit of command buffer 2 ends in
    undefined behaviour. *)
Theorem end_entry_pops_empty_marker_stack :
  (forall meta marker completed n,
      Marker.type marker = kDebugMarkerEnd ->
      walk_marker meta marker (mkWalk [] completed n) = Fail UndefinedBehaviour) /\
  capture_started_inside_marker = Ok capture_started_inside_marker_tracker /\
  queue_to_markers_ capture_started_inside_marker_tracker !! the_queue = None /\
  DoPostSubmitQueue true 50 3%Z the_queue [[2]] (PreSubmission true 40)
    capture_started_inside_marker_tracker
  = Fail UndefinedBehaviour.
Proof.
  split; [|split; [|split]].
  - intros meta marker completed n Htype. unfold walk_marker. rewrite Htype.
    reflexivity.
  - vm_compute. reflexivity.
  - vm_compute. reflexivity.
  - vm_compute. reflexivity.
Qed.

(** ** Pulling completed submissions *)

Section Pull.
Context {D : Type} `{!DispatchTable D}.

Lemma probe_loop_empty_back (device : VkDevice) (query_pool : VkQueryPool)
    (positions : list SubmitInfo.t) (d : D) :
  probe_loop device query_pool positions (SubmitInfo.mk []) d = (true, false, d).
Proof. induction positions as [|info rest IH]; simpl; [reflexivity|exact IH]. Qed.

Lemma pull_queue_cons_probe (device : VkDevice) (query_pool : VkQueryPool)
    (submission : QueueSubmission.t) (rest : list QueueSubmission.t)
    (info : SubmitInfo.t) (cb : SubmittedCommandBuffer.t) (d : D) :
  back (QueueSubmission.submit_infos submission) = Some info ->
  back (SubmitInfo.command_buffers info) = Some cb ->
  pull_queue device query_pool (submission :: rest) d =
  let '(query_worked, _, d1) :=
    GetQueryPoolResults device query_pool
      (SubmittedCommandBuffer.command_buffer_end_slot_index cb) d in
  let '(completed, kept, d2) := pull_queue device query_pool rest d1 in
  if VkResult_is_success query_worked
  then (submission :: completed, kept, d2)
  else (completed, submission :: kept, d2).
Proof.
  intros Hinfo Hcb. simpl. rewrite Hinfo.
  destruct (QueueSubmission.submit_infos submission) as [|i l] eqn:Hinfos;
    [discriminate|].
  assert (Hrev : exists i' l', rev (i :: l) = i' :: l').
  { destruct (rev (i :: l)) as [|i' l'] eqn:Hrev; [|eauto].
    apply (f_equal (@length _)) in Hrev. rewrite length_rev in Hrev.
    discriminate. }
  destruct Hrev as (i' & l' & ->). cbn [probe_loop]. rewrite Hcb.
  destruct (GetQueryPoolResults device query_pool
              (SubmittedCommandBuffer.command_buffer_end_slot_index cb) d)
    as [[query_worked ticks] d1].
  destruct (VkResult_is_success query_worked);
    destruct (pull_queue device query_pool rest d1) as [[completed kept] d2];
    reflexivity.
Qed.

Lemma pull_queue_sublist (device : VkDevice) (query_pool : VkQueryPool)
    (queue_submissions : list QueueSubmission.t) (d : D) :
  sublist (pull_queue device query_pool queue_submissions d).1.1 queue_submissions /\
  sublist (pull_queue device query_pool queue_submissions d).1.2 queue_submissions.
Proof.
  revert d. induction queue_submissions as [|submission rest IH]; intros d; simpl.
  - split; constructor.
  - destruct (back (QueueSubmission.submit_infos submission)) as [info|].
    + destruct (probe_loop device query_pool
                  (rev (QueueSubmission.submit_infos submission)) info d)
        as [[erase completed] d1].
      specialize (IH d1).
      destruct (pull_queue device query_pool rest d1) as [[completed' kept] d2].
      simpl in *. destruct IH as [IHc IHk]. split.
      * destruct completed; simpl;
          [apply sublist_skip|apply sublist_cons]; exact IHc.
      * destruct erase; simpl;
          [apply sublist_cons|apply sublist_skip]; exact IHk.
    + specialize (IH d). destruct IH as [IHc IHk].
      split; apply sublist_cons; assumption.
Qed.

Lemma pull_queue_empty_back (device : VkDevice) (query_pool : VkQueryPool)
    (submission : QueueSubmission.t) (rest : list QueueSubmission.t) (d : D) :
  back (QueueSubmission.submit_infos submission) = Some (SubmitInfo.mk []) ->
  pull_queue device query_pool (submission :: rest) d
  = pull_queue device query_pool rest d.
Proof.
  intros Hback. simpl. rewrite Hback, probe_loop_empty_back.
  destruct (pull_queue device query_pool rest d) as [[completed kept] d'].
  reflexivity.
Qed.

(* The half of the drain that the code does as specified: a submission
   without any submit info is erased without a probe. *)
Lemma submission_without_submit_infos_is_dropped (device : VkDevice)
    (query_pool : VkQueryPool) (submission : QueueSubmission.t)
    (rest : list QueueSubmission.t) (d : D) :
  QueueSubmission.submit_infos submission = [] ->
  pull_queue device query_pool (submission :: rest) d
  = pull_queue device query_pool rest d.
Proof. intros Hnone. simpl. rewrite Hnone. reflexivity. Qed.

(** C3 (the code departs from it). A submission whose last submit info is
    empty is erased without a probe and without being handed on, although
    an earlier submit info holds a command buffer: the inner loop of
    PullCompletedSubmissions moves its reverse iterator but reads
    [submit_infos.back()] in every round, so the scan of the queue goes on
    as if the submission had not been there. The specification has the end
    slot of the last command buffer probed. *)
Theorem trailing_empty_submit_info_drops_submission
    (device : VkDevice) (query_pool : VkQueryPool) (d : D)
    (meta : SubmissionMetaInformation) (infos : list SubmitInfo.t)
    (cb : SubmittedCommandBuffer.t) (completed_markers : list MarkerState.t)
    (num_begin_markers : N) (rest : list QueueSubmission.t) :
  let submission :=
    QueueSubmission.mk meta (infos ++ [SubmitInfo.mk [cb]; SubmitInfo.mk []])
                       completed_markers num_begin_markers in
  spec_probe_slot submission
  = Some (SubmittedCommandBuffer.command_buffer_end_slot_index cb) /\
  pull_queue device query_pool (submission :: rest) d
  = pull_queue device query_pool rest d.
Proof.
  intros submission. split.
  - unfold spec_probe_slot, submission. simpl.
    rewrite fmap_app, concat_app. simpl. rewrite back_app. reflexivity.
  - apply pull_queue_empty_back. unfold submission. simpl.
    change (infos ++ [SubmitInfo.mk [cb]; SubmitInfo.mk []])
      with (infos ++ [SubmitInfo.mk [cb]] ++ [SubmitInfo.mk []]).
    rewrite app_assoc. apply back_app.
Qed.

Lemma sublist_lookup {A : Type} (l1 l2 : list A) (i : nat) (a : A) :
  sublist l1 l2 -> l1 !! i = Some a -> exists i', l2 !! i' = Some a.
Proof.
  intros Hsub. revert i. induction Hsub as [|x l1 l2 Hsub IH|x l1 l2 Hsub IH];
    intros i Hi.
  - discriminate.
  - destruct i as [|i]; simpl in Hi.
    + exists 0%nat. exact Hi.
    + destruct (IH i Hi) as [i' Hi']. exists (S i'). exact Hi'.
  - destruct (IH i Hi) as [i' Hi']. exists (S i'). exact Hi'.
Qed.

(* Two elements of a sublist stand in the same order in the list. *)
Lemma sublist_lookup_order {A : Type} (l1 l2 : list A) (i j : nat) (a b : A) :
  sublist l1 l2 ->
  l1 !! i = Some a -> l1 !! j = Some b -> (i < j)%nat ->
  exists i' j', (i' < j')%nat /\ l2 !! i' = Some a /\ l2 !! j' = Some b.
Proof.
  intros Hsub. revert i j.
  induction Hsub as [|x l1 l2 Hsub IH|x l1 l2 Hsub IH]; intros i j Hi Hj Hlt.
  - discriminate.
  - destruct j as [|j]; [lia|]. simpl in Hj. destruct i as [|i]; simpl in Hi.
    + destruct (sublist_lookup _ _ _ _ Hsub Hj) as [j' Hj'].
      exists 0%nat, (S j'). split; [lia|]. split; [exact Hi|exact Hj'].
    + destruct (IH i j Hi Hj ltac:(lia)) as (i' & j' & Hlt' & Hi' & Hj').
      exists (S i'), (S j'). split; [lia|]. split; assumption.
  - destruct (IH i j Hi Hj Hlt) as (i' & j' & Hlt' & Hi' & Hj').
    exists (S i'), (S j'). split; [lia|]. split; assumption.
Qed.

(** C4, as the code has it. A submission whose probe does not answer
    VK_SUCCESS stays in flight, and the scan does not stop there: the
    submissions behind it on the same queue are handled exactly as by a scan
    of those submissions alone, from the driver state that the probe left.
    In particular, when the next submission has a command buffer in its last
    submit info, the end slot of that buffer is probed next, and the
    submission is handed on if that probe answers VK_SUCCESS. First in,
    first out holds within one scan only: when a scan hands on A before B,
    A stood before B in the list of the queue; and the submissions left in
    flight keep their order. *)
Theorem not_ready_submission_stays_and_scan_continues
    (device : VkDevice) (query_pool : VkQueryPool)
    (submission : QueueSubmission.t) (rest : list QueueSubmission.t)
    (info : SubmitInfo.t) (cb : SubmittedCommandBuffer.t)
    (d d1 : D) (query_worked : VkResult) (ticks : N) :
  back (QueueSubmission.submit_infos submission) = Some info ->
  back (SubmitInfo.command_buffers info) = Some cb ->
  GetQueryPoolResults device query_pool
    (SubmittedCommandBuffer.command_buffer_end_slot_index cb) d
  = (query_worked, ticks, d1) ->
  query_worked <> VK_SUCCESS ->
  pull_queue device query_pool (submission :: rest) d
  = (let '(completed, kept, d2) := pull_queue device query_pool rest d1 in
     (completed, submission :: kept, d2)) /\
  (forall next rest' info' cb',
      rest = next :: rest' ->
      back (QueueSubmission.submit_infos next) = Some info' ->
      back (SubmitInfo.command_buffers info') = Some cb' ->
      pull_queue device query_pool (submission :: rest) d
      = (let '(next_worked, _, d2) :=
           GetQueryPoolResults device query_pool
             (SubmittedCommandBuffer.command_buffer_end_slot_index cb') d1 in
         let '(completed, kept, d3) := pull_queue device query_pool rest' d2 in
         if VkResult_is_success next_worked
         then (next :: completed, submission :: kept, d3)
         else (completed, submission :: next :: kept, d3))) /\
  (forall queue_submissions d0 i j A B,
      (pull_queue device query_pool queue_submissions d0).1.1 !! i = Some A ->
      (pull_queue device query_pool queue_submissions d0).1.1 !! j = Some B ->
      (i < j)%nat ->
      exists i' j',
        (i' < j')%nat /\
        queue_submissions !! i' = Some A /\ queue_submissions !! j' = Some B) /\
  (forall queue_submissions d0,
      sublist (pull_queue device query_pool queue_submissions d0).1.2
              queue_submissions).
Proof.
  intros Hinfo Hcb Hquery Hnot.
  assert (Hstay :
    pull_queue device query_pool (submission :: rest) d
    = (let '(completed, kept, d2) := pull_queue device query_pool rest d1 in
       (completed, submission :: kept, d2))).
  { rewrite (pull_queue_cons_probe _ _ _ _ _ _ _ Hinfo Hcb), Hquery.
    destruct query_worked; [contradiction| |];
      destruct (pull_queue device query_pool rest d1) as [[completed kept] d2];
      reflexivity. }
  split; [exact Hstay|]. split; [|split].
  - intros next rest' info' cb' -> Hinfo' Hcb'. rewrite Hstay.
    rewrite (pull_queue_cons_probe _ _ _ _ _ _ _ Hinfo' Hcb').
    destruct (GetQueryPoolResults device query_pool
                (SubmittedCommandBuffer.command_buffer_end_slot_index cb') d1)
      as [[next_worked ticks'] d2].
    destruct (pull_queue device query_pool rest' d2) as [[completed kept] d3].
    destruct (VkResult_is_success next_worked); reflexivity.
  - intros queue_submissions d0 i j A B Hi Hj Hlt.
    eapply sublist_lookup_order; [|exact Hi|exact Hj|exact Hlt].
    apply pull_queue_sublist.
  - intros queue_submissions d0. apply pull_queue_sublist.
Qed.

End Pull.


(** C4, as the specification has it, fails on [two_in_flight_tracker]:
    A (pre-submit time 40) was enqueued before B (pre-submit time 60). The
    first scan probes the end slot of A (slot 2), is told that it is not
    ready, goes on to probe the end slot of B (slot 0) and hands B on; A is
    handed on by the second scan only. *)
Lemma later_submission_is_probed_and_emitted_first :
  let scan1 :=
    PullCompletedSubmissions the_device the_query_pool two_in_flight_tracker in
  let scan2 := PullCompletedSubmissions the_device the_query_pool scan1.2 in
  pre_submission_times
    <$> queue_to_submissions_ two_in_flight_tracker !! the_queue = Some [40; 60] /\
  Driver.queried (dispatch_table_ scan1.2) = [2; 0] /\
  pre_submission_times scan1.1 = [60] /\
  pre_submission_times
    <$> queue_to_submissions_ scan1.2 !! the_queue = Some [40] /\
  pre_submission_times scan2.1 = [40].
Proof. vm_compute. repeat split; reflexivity. Qed.

Lemma not_ready_submission_stays_and_scan_continues_witness :
  let a := QueueSubmission.mk (mkMeta 40 50 3)
             [SubmitInfo.mk [SubmittedCommandBuffer.mk (Some 3) 2]] [] 0 in
  let b := QueueSubmission.mk (mkMeta 60 70 3)
             [SubmitInfo.mk [SubmittedCommandBuffer.mk (Some 1) 0]] [] 0 in
  let d := Driver.mk (<[0 := 14]> ∅) 0 [] [] in
  pull_queue the_device the_query_pool [a; b] d
  = ([b], [a], Driver.mk (<[0 := 14]> ∅) 0 [] [2; 0]).
Proof.
  intros a b d.
  destruct (not_ready_submission_stays_and_scan_continues
              the_device the_query_pool a [b]
              (SubmitInfo.mk [SubmittedCommandBuffer.mk (Some 3) 2])
              (SubmittedCommandBuffer.mk (Some 3) 2)
              d (Driver.mk (<[0 := 14]> ∅) 0 [] [2]) VK_NOT_READY 0)
    as (_ & Hnext & _).
  - reflexivity.
  - reflexivity.
  - vm_compute. reflexivity.
  - discriminate.
  - rewrite (Hnext b [] (SubmitInfo.mk [SubmittedCommandBuffer.mk (Some 1) 0])
               (SubmittedCommandBuffer.mk (Some 1) 0) eq_refl eq_refl eq_refl).
    vm_compute. reflexivity.
Defined.

(** ** End markers and completed markers *)

(** C2, as the code has it. When the walk of a capturing post-submit meets an
    end entry and the marker stack is not empty, the top is popped; it goes
    to the completed markers of the submission exactly when the end entry
    carries a slot, with that slot as its end, and with the begin side as it
    was pushed (absent if the begin entry had no slot). An end entry without
    a slot completes nothing, whatever the popped begin carries. *)
Theorem end_entry_completes_marker_iff_it_has_a_slot
    (meta : SubmissionMetaInformation) (marker : Marker.t)
    (top : MarkerState.t) (stack completed : list MarkerState.t) (n : N) :
  Marker.type marker = kDebugMarkerEnd ->
  walk_marker meta marker (mkWalk (top :: stack) completed n) =
  Ok (mkWalk stack
        match Marker.slot_index marker with
        | Some slot =>
            completed ++
              [MarkerState.mk (MarkerState.begin_info top)
                 (Some (SubmittedMarker.mk meta slot))
                 (MarkerState.text top) (MarkerState.color top)
                 (MarkerState.depth top)]
        | None => completed
        end
        n).
Proof.
  intros Htype. unfold walk_marker. rewrite Htype. simpl.
  destruct (Marker.slot_index marker); reflexivity.
Qed.

Lemma end_entry_completes_marker_iff_it_has_a_slot_witness :
  let meta := mkMeta 40 50 3 in
  let open := MarkerState.mk (Some (SubmittedMarker.mk (mkMeta 20 30 3) 1))
                None "A" (mkColor 1 0 0 1) 0 in
  walk_marker meta (end_entry (Some 0)) (mkWalk [open] [] 0)
  = Ok (mkWalk []
          [MarkerState.mk (Some (SubmittedMarker.mk (mkMeta 20 30 3) 1))
             (Some (SubmittedMarker.mk meta 0)) "A" (mkColor 1 0 0 1) 0]
          0).
Proof.
  intros meta open.
  exact (end_entry_completes_marker_iff_it_has_a_slot meta (end_entry (Some 0))
           open [] [] 0 eq_refl).
Defined.

(** C2, as the specification has it, fails: the popped begin carries a slot
    (slot 1), the end entry carries none, and nothing is added to the
    completed markers. *)
Lemma begin_slot_alone_completes_nothing :
  ~ (forall meta marker top stack completed n w',
        Marker.type marker = kDebugMarkerEnd ->
        walk_marker meta marker (mkWalk (top :: stack) completed n) = Ok w' ->
        ((exists marker_state,
             walk_completed_markers w' = completed ++ [marker_state])
         <-> (is_Some (Marker.slot_index marker)
              \/ is_Some (MarkerState.begin_info top)))).
Proof.
  intros Hclaim.
  destruct (Hclaim (mkMeta 40 50 3) (end_entry None)
              (MarkerState.mk (Some (SubmittedMarker.mk (mkMeta 20 30 3) 1))
                 None "A" (mkColor 1 0 0 1) 0)
              [] [] 0 (mkWalk [] [] 0) eq_refl eq_refl) as [_ Hemit].
  destruct Hemit as [marker_state Hemit]; [right; eexists; reflexivity|].
  discriminate Hemit.
Qed.


(** ** The properties on the small installation *)


Lemma ResetCommandBuffer_rolls_back_witness :
  exists t' slots',
    ResetCommandBuffer 1 recorded_tracker = Ok t' /\
    command_buffer_to_state_ recorded_tracker !! 1
    = Some (CommandBufferState.mk (Some 3) (Some 2) [] 0) /\
    command_buffer_to_state_ t' !! 1 = None /\
    TimerQueryPool.device_to_query_slots_ (timer_query_pool_ t') !! the_device
    = Some slots' /\
    slots' !! 3%nat = Some TimerQueryPool.kReadyForQueryIssue /\
    slots' !! 2%nat = Some TimerQueryPool.kReadyForQueryIssue /\
    TimerQueryPool.device_to_free_slots_ (timer_query_pool_ recorded_tracker)
      !! the_device = Some [0; 1] /\
    TimerQueryPool.device_to_free_slots_ (timer_query_pool_ t') !! the_device
    = Some [0; 1; 3; 2] /\
    TimerQueryPool.driver_calls (timer_query_pool_ t')
    = TimerQueryPool.driver_calls (timer_query_pool_ recorded_tracker).
Proof.
  destruct (proj1 (proj2 (proj2 (ResetCommandBuffer_rolls_back recorded_tracker 1)))
              recorded_tracker (CommandBufferState.mk (Some 3) (Some 2) [] 0)
              the_device
              [TimerQueryPool.kReadyForQueryIssue; TimerQueryPool.kReadyForQueryIssue;
               TimerQueryPool.kQueryPendingOnGpu; TimerQueryPool.kQueryPendingOnGpu]
              [0; 1])
    as (slots' & Hreset & _ & Hready & _).
  - vm_compute. reflexivity.
  - vm_compute. reflexivity.
  - vm_compute. reflexivity.
  - vm_compute. reflexivity.
  - apply (bool_decide_unpack (NoDup [3; 2])). vm_compute. exact I.
  - intros slot [Hslot|[Hslot|(marker & Hmarker & _)]].
    + injection Hslot as <-. split; [vm_compute; reflexivity|reflexivity].
    + injection Hslot as <-. split; [vm_compute; reflexivity|reflexivity].
    + apply elem_of_nil in Hmarker. contradiction.
  - eexists _, slots'. split; [exact Hreset|].
    split; [vm_compute; reflexivity|].
    split; [apply lookup_delete_eq|].
    split; [apply lookup_insert_eq|].
    split; [apply (Hready 3); left; reflexivity|].
    split; [apply (Hready 2); right; left; reflexivity|].
    split; [vm_compute; reflexivity|].
    split; [apply lookup_insert_eq|reflexivity].
Defined.

Lemma marker_slots_follow_depth_filter_witness :
  let state :=
    default CommandBufferState.empty
            (command_buffer_to_state_ one_marker_tracker !! 1) in
  max_local_marker_depth_per_command_buffer_ one_marker_tracker = 1 /\
  CommandBufferState.local_marker_stack_size state = 1 /\
  MarkDebugMarkerBegin true 1 "B" (mkColor 0 1 0 1) one_marker_tracker
  = Ok (set_states
          (<[1 := after_begin_marker state "B" (mkColor 0 1 0 1) None]>
             (command_buffer_to_state_ one_marker_tracker))
          one_marker_tracker).
Proof.
  intros state. split; [reflexivity|]. split; [vm_compute; reflexivity|].
  destruct (marker_slots_follow_depth_filter one_marker_tracker 1 state "B"
              (mkColor 0 1 0 1)) as [_ Hfilter].
  - vm_compute. reflexivity.
  - destruct (Hfilter ltac:(vm_compute; reflexivity) true) as [Hbegin _].
    apply Hbegin. vm_compute. reflexivity.
Defined.


(** * Further properties of the slot pool *)

Section PoolLaws.
Import TimerQueryPool.

Lemma NextReadyQuerySlot_Some (p p' : t) (d : VkDevice) (s : N) :
  NextReadyQuerySlot d p = Ok (Some s, p') <->
  exists slots init,
    device_to_query_slots_ p !! d = Some slots /\
    device_to_free_slots_ p !! d = Some (init ++ [s]) /\
    slots !! N.to_nat s = Some kReadyForQueryIssue /\
    p' = set_slots d (<[N.to_nat s := kQueryPendingOnGpu]> slots) init p.
Proof.
  unfold NextReadyQuerySlot. split.
  - intros Hrun. inv_Ok Hrun.
    destruct (pop_back a1) as [[init i]|] eqn:Hpop; [|discriminate].
    inv_Ok Hrun. destruct (a2 !! N.to_nat i) as [state|] eqn:Hstate; [|discriminate].
    inv_Ok Hrun. injection Hrun as <- <-.
    apply bool_decide_eq_true in Ha3 as ->. apply pop_back_Some in Hpop as ->.
    eauto 10.
  - intros (slots & init & Hslots & Hfree & Hstate & ->).
    rewrite (contains_Some _ _ _ Hslots), (contains_Some _ _ _ Hfree). simpl.
    unfold map_at. rewrite Hfree. simpl. rewrite pop_back_app, Hslots. simpl.
    rewrite Hstate. reflexivity.
Qed.

Lemma NextReadyQuerySlot_None (p r : t) (d : VkDevice) :
  NextReadyQuerySlot d p = Ok (None, r) <->
  r = p /\ is_Some (device_to_query_slots_ p !! d) /\
  device_to_free_slots_ p !! d = Some [].
Proof.
  unfold NextReadyQuerySlot. split.
  - intros Hrun. inv_Ok Hrun.
    destruct (pop_back a1) as [[init i]|] eqn:Hpop.
    + inv_Ok Hrun. destruct (a2 !! N.to_nat i); [|discriminate].
      inv_Ok Hrun. discriminate.
    + injection Hrun as <-. apply pop_back_None in Hpop as ->.
      apply contains_true in Ha0. auto.
  - intros (-> & [slots Hslots] & Hfree).
    rewrite (contains_Some _ _ _ Hslots), (contains_Some _ _ _ Hfree). simpl.
    unfold map_at. rewrite Hfree. reflexivity.
Qed.

Lemma reset_one_Ok (d : VkDevice) (rollback_only : bool) (i : N) (p p' : t) :
  reset_one d rollback_only i p = Ok p' <->
  exists slots free_slots,
    device_to_query_slots_ p !! d = Some slots /\
    device_to_free_slots_ p !! d = Some free_slots /\
    i < num_timer_query_slots_ p /\
    slots !! N.to_nat i = Some kQueryPendingOnGpu /\
    let released :=
      set_slots d (<[N.to_nat i := kReadyForQueryIssue]> slots)
                (free_slots ++ [i]) p in
    if rollback_only then p' = released
    else exists query_pool,
        device_to_query_pool_ p !! d = Some query_pool /\
        p' = call (ResetQueryPoolEXT d query_pool i 1) released.
Proof.
  unfold reset_one. split.
  - intros Hrun. inv_Ok Hrun.
    destruct (a !! N.to_nat i) as [state|] eqn:Hstate; [|discriminate].
    injection Ha2 as <-. apply bool_decide_eq_true in Ha1, Ha3. subst state.
    exists a, a0. repeat (split; [assumption|]). simpl.
    destruct rollback_only.
    + injection Hrun as <-. reflexivity.
    + inv_Ok Hrun. injection Hrun as <-. simpl in *. eauto.
  - intros (slots & free_slots & Hslots & Hfree & Hlt & Hstate & Hp').
    unfold map_at. rewrite Hslots, Hfree. simpl.
    rewrite (bool_decide_eq_true_2 _ Hlt). simpl. rewrite Hstate. simpl.
    destruct rollback_only; simpl in Hp'.
    + subst p'. reflexivity.
    + destruct Hp' as (query_pool & Hqp & ->). simpl. rewrite Hqp. reflexivity.
Qed.

Lemma reset_loop_app (d : VkDevice) (rollback_only : bool)
    (slots1 slots2 : list N) (p : t) :
  reset_loop d rollback_only (slots1 ++ slots2) p =
  reset_loop d rollback_only slots1 p ≫= reset_loop d rollback_only slots2.
Proof.
  revert p. induction slots1 as [|i rest IH]; intros p; simpl; [reflexivity|].
  destruct (reset_one d rollback_only i p) as [p1|]; simpl; [apply IH|reflexivity].
Qed.

Lemma iota_S (n : nat) :
  iota (N.of_nat (S n)) = iota (N.of_nat n) ++ [N.of_nat n].
Proof.
  unfold iota. rewrite !Nat2N.id, seq_S, fmap_app. reflexivity.
Qed.

(** X1. When the driver creates the query pool and the device has none yet,
    InitializeTimerQueryPool returns; the device then has the handle that the
    driver gave, all N slots are ready, the free list is 0, 1, ..., N-1, the
    invariant of the pool holds, the driver has received one create and one
    reset of all N slots, and (slots being handed out from the back of the
    free list) the first slot acquired is N-1. *)
Theorem InitializeTimerQueryPool_makes_all_slots_ready
    (device : VkDevice) (query_pool : VkQueryPool) (p : t) :
  device_to_query_pool_ p !! device = None ->
  exists p',
    InitializeTimerQueryPool device (VK_SUCCESS, query_pool) p = Ok p' /\
    GetQueryPool device p' = Ok query_pool /\
    device_to_query_slots_ p' !! device
    = Some (replicate (N.to_nat (num_timer_query_slots_ p)) kReadyForQueryIssue) /\
    device_to_free_slots_ p' !! device = Some (iota (num_timer_query_slots_ p)) /\
    pool_inv p' device /\
    driver_calls p' =
    driver_calls p ++
      [CreateQueryPool device (num_timer_query_slots_ p);
       ResetQueryPoolEXT device query_pool 0 (num_timer_query_slots_ p)] /\
    (0 < num_timer_query_slots_ p ->
     exists p'', NextReadyQuerySlot device p'
                 = Ok (Some (num_timer_query_slots_ p - 1), p'')).
Proof.
  intros Hnone.
  destruct (InitializeTimerQueryPool device (VK_SUCCESS, query_pool) p)
    as [p'|f] eqn:Hinit.
  2:{ exfalso. unfold InitializeTimerQueryPool in Hinit. simpl in Hinit.
      rewrite (proj2 (contains_false _ _) Hnone) in Hinit. discriminate. }
  exists p'. split; [reflexivity|].
  pose proof (InitializeTimerQueryPool_inv _ _ _ _ Hinit) as Hinv.
  unfold InitializeTimerQueryPool in Hinit. simpl in Hinit.
  rewrite (proj2 (contains_false _ _) Hnone) in Hinit. simpl in Hinit.
  injection Hinit as <-. simpl in *.
  split.
  { unfold GetQueryPool. simpl.
    rewrite (contains_Some _ _ query_pool) by apply lookup_insert_eq. simpl.
    unfold map_at. rewrite lookup_insert_eq. reflexivity. }
  split; [apply lookup_insert_eq|]. split; [apply lookup_insert_eq|].
  split; [exact Hinv|]. split; [rewrite <- app_assoc; reflexivity|].
  intros Hpos. eexists. apply NextReadyQuerySlot_Some. simpl.
  rewrite !lookup_insert_eq.
  exists (replicate (N.to_nat (num_timer_query_slots_ p)) kReadyForQueryIssue),
         (iota (num_timer_query_slots_ p - 1)).
  split; [reflexivity|]. split; [|split; [|reflexivity]].
  - f_equal.
    replace (num_timer_query_slots_ p)
      with (N.of_nat (S (N.to_nat (num_timer_query_slots_ p - 1)))) at 1 by lia.
    rewrite iota_S. f_equal; [f_equal; lia|f_equal; lia].
  - apply lookup_replicate. split; [reflexivity|lia].
Qed.

(** X2. Initialising a device twice is fatal: after a successful
    InitializeTimerQueryPool, a second one on the same device fails its
    check, whatever the driver answers; and a first one fails the same way
    when the driver does not return VK_SUCCESS. *)
Theorem InitializeTimerQueryPool_twice_fails
    (device : VkDevice) (created created' : VkResult * VkQueryPool) (p p' : t) :
  InitializeTimerQueryPool device created p = Ok p' ->
  created.1 = VK_SUCCESS /\
  InitializeTimerQueryPool device created' p' = Fail CheckFailed.
Proof.
  destruct created as [res query_pool], created' as [res' query_pool'].
  unfold InitializeTimerQueryPool. intros Hinit. inv_Ok Hinit.
  injection Hinit as <-. simpl.
  split; [destruct res; (reflexivity || discriminate)|].
  destruct res'; simpl; try reflexivity.
  rewrite (contains_Some _ _ query_pool) by apply lookup_insert_eq. reflexivity.
Qed.

(** X3. Acquiring a slot and rolling it back is a round trip: on an
    initialised device, RollbackPendingQuerySlots of the slot that
    NextReadyQuerySlot has just returned gives back the pool as it was
    before, states, free list (in the same order) and driver calls. *)
Theorem acquire_then_rollback_restores_pool (p p' : t) (d : VkDevice) (s : N) :
  pool_inv p d ->
  NextReadyQuerySlot d p = Ok (Some s, p') ->
  RollbackPendingQuerySlots d [s] p' = Ok p.
Proof.
  intros (slots0 & free0 & Hs0 & Hf0 & Hinv) Hacquire.
  apply NextReadyQuerySlot_Some in Hacquire
    as (slots & init & Hslots & Hfree & Hstate & ->).
  assert (slots0 = slots) as -> by congruence.
  assert (Hlt : s < num_timer_query_slots_ p).
  { apply lookup_lt_Some in Hstate. rewrite (inv_length _ _ _ Hinv) in Hstate. lia. }
  set (p' := set_slots d (<[N.to_nat s:=kQueryPendingOnGpu]> slots) init p).
  assert (Hs' : device_to_query_slots_ p' !! d
                = Some (<[N.to_nat s:=kQueryPendingOnGpu]> slots))
    by apply lookup_insert_eq.
  assert (Hf' : device_to_free_slots_ p' !! d = Some init)
    by apply lookup_insert_eq.
  assert (Hone : reset_one d true s p' = Ok p).
  { apply reset_one_Ok. eexists _, _.
    split; [exact Hs'|]. split; [exact Hf'|]. split; [exact Hlt|].
    split; [apply list_lookup_insert_eq; eapply lookup_lt_Some; exact Hstate|].
    unfold p', set_slots. simpl.
    rewrite !insert_insert_eq, list_insert_insert_eq.
    rewrite (list_insert_id _ _ _ Hstate).
    rewrite (insert_id _ _ _ Hslots), (insert_id _ _ _ Hfree).
    destruct p. reflexivity. }
  unfold RollbackPendingQuerySlots, ResetQuerySlotsInternal.
  rewrite (contains_Some _ _ _ Hs').
  rewrite (proj2 (map_at_Ok _ _ _) Hs'), (proj2 (map_at_Ok _ _ _) Hf').
  cbn [CHECK mbind result_bind reset_loop]. rewrite Hone. reflexivity.
Qed.

(** X4. Slots are handed out last-released-first: after a release (with or
    without hardware reset) whose list of slots ends with [s], the next
    NextReadyQuerySlot on that device returns [s]. *)
Theorem last_released_slot_is_acquired_next
    (d : VkDevice) (slot_indices : list N) (s : N) (rollback_only : bool)
    (p p' : t) :
  ResetQuerySlotsInternal d (slot_indices ++ [s]) rollback_only p = Ok p' ->
  exists p'', NextReadyQuerySlot d p' = Ok (Some s, p'').
Proof.
  intros Hrelease. unfold ResetQuerySlotsInternal in Hrelease.
  destruct (slot_indices ++ [s]) as [|i rest] eqn:Happ.
  { destruct slot_indices; discriminate. }
  inv_Ok Hrelease. rewrite <- Happ, reset_loop_app in Hrelease.
  inv_Ok Hrelease. simpl in Hrelease. inv_Ok Hrelease.
  injection Hrelease as <-.
  match goal with
  | H : reset_one _ _ _ _ = Ok _ |- _ =>
      apply reset_one_Ok in H as (slots & free_slots & Hs & Hf & Hlt & Hst & Hp')
  end.
  assert (Hin : (N.to_nat s < length slots)%nat) by (eapply lookup_lt_Some; exact Hst).
  destruct rollback_only; simpl in Hp'.
  - subst. eexists. apply NextReadyQuerySlot_Some.
    exists (<[N.to_nat s:=kReadyForQueryIssue]> slots), free_slots.
    simpl. rewrite !lookup_insert_eq.
    split; [reflexivity|]. split; [reflexivity|].
    split; [apply list_lookup_insert_eq; exact Hin|reflexivity].
  - destruct Hp' as (query_pool & _ & ->). eexists. apply NextReadyQuerySlot_Some.
    exists (<[N.to_nat s:=kReadyForQueryIssue]> slots), free_slots.
    simpl. rewrite !lookup_insert_eq.
    split; [reflexivity|]. split; [reflexivity|].
    split; [apply list_lookup_insert_eq; exact Hin|reflexivity].
Qed.

(** X5. On an initialised device NextReadyQuerySlot answers "no slot" exactly
    when every one of the N slots is pending, and it then leaves the pool as
    it is. *)
Theorem NextReadyQuerySlot_none_iff_exhausted
    (p : t) (d : VkDevice) (slots : list SlotState) :
  pool_inv p d ->
  device_to_query_slots_ p !! d = Some slots ->
  (forall r, NextReadyQuerySlot d p = Ok (None, r) -> r = p) /\
  (NextReadyQuerySlot d p = Ok (None, p) <->
   count_state kQueryPendingOnGpu slots = N.to_nat (num_timer_query_slots_ p)).
Proof.
  intros (slots0 & free_slots & Hs0 & Hf & Hinv) Hslots.
  assert (slots0 = slots) as -> by congruence.
  destruct Hinv as [Hlen Hcount _ _ Hready]. split.
  - intros r Hr. apply NextReadyQuerySlot_None in Hr. tauto.
  - rewrite NextReadyQuerySlot_None. split.
    + intros (_ & _ & Hnil). rewrite Hf in Hnil. injection Hnil as ->.
      simpl in Hready. lia.
    + intros Hall. split; [reflexivity|]. split; [eauto|].
      rewrite Hf. f_equal. apply length_zero_iff_nil. lia.
Qed.


Lemma reset_loop_returns_iff (d : VkDevice) (rollback_only : bool)
    (slot_indices : list N) :
  forall (p : t) (slots : list SlotState) (free_slots : list N),
    device_to_query_slots_ p !! d = Some slots ->
    device_to_free_slots_ p !! d = Some free_slots ->
    length slots = N.to_nat (num_timer_query_slots_ p) ->
    (rollback_only = false -> is_Some (device_to_query_pool_ p !! d)) ->
    (exists p', reset_loop d rollback_only slot_indices p = Ok p') <->
    NoDup slot_indices /\
    forall s, s ∈ slot_indices -> slots !! N.to_nat s = Some kQueryPendingOnGpu.
Proof.
  induction slot_indices as [|i rest IH]; intros p slots free_slots Hs Hf Hlen Hqp.
  - simpl. split; [|eauto]. intros _. split; [constructor|].
    intros s Hin. inversion Hin.
  - set (released := set_slots d (<[N.to_nat i := kReadyForQueryIssue]> slots)
                       (free_slots ++ [i]) p).
    assert (Hstep : forall p1,
               reset_one d rollback_only i p = Ok p1 ->
               slots !! N.to_nat i = Some kQueryPendingOnGpu /\
               device_to_query_slots_ p1 !! d
               = Some (<[N.to_nat i := kReadyForQueryIssue]> slots) /\
               device_to_free_slots_ p1 !! d = Some (free_slots ++ [i]) /\
               num_timer_query_slots_ p1 = num_timer_query_slots_ p /\
               device_to_query_pool_ p1 = device_to_query_pool_ p).
    { intros p1 Hone.
      apply reset_one_Ok in Hone as (slots' & free' & Hs' & Hf' & _ & Hst & Hp1).
      assert (slots' = slots) as -> by congruence.
      assert (free' = free_slots) as -> by congruence.
      split; [exact Hst|].
      destruct rollback_only; simpl in Hp1.
      - subst p1. simpl. rewrite !lookup_insert_eq. auto.
      - destruct Hp1 as (qp & _ & ->). simpl. rewrite !lookup_insert_eq. auto. }
    simpl. split.
    + intros [p' Hrun]. inv_Ok Hrun.
      match goal with
      | H : reset_one _ _ _ _ = Ok ?p1 |- _ =>
          destruct (Hstep p1 H) as (Hst & Hs1 & Hf1 & Hn1 & Hq1);
          destruct (proj1 (IH p1 _ _ Hs1 Hf1
                             ltac:(rewrite length_insert, Hn1; exact Hlen)
                             ltac:(rewrite Hq1; exact Hqp))
                          (ex_intro _ p' Hrun)) as [Hnd Hall]
      end.
      assert (Hnotin : i ∉ rest).
      { intros Hin. specialize (Hall i Hin).
        rewrite list_lookup_insert_eq in Hall
          by (eapply lookup_lt_Some; exact Hst).
        discriminate. }
      split; [constructor; assumption|].
      intros s Hin. apply elem_of_cons in Hin as [->|Hin]; [exact Hst|].
      specialize (Hall s Hin).
      rewrite list_lookup_insert_ne in Hall; [exact Hall|].
      intros Heq. apply Hnotin. apply N2Nat.inj in Heq. subst. exact Hin.
    + intros [Hnd Hall]. apply NoDup_cons in Hnd as [Hnotin Hnd].
      assert (Hst : slots !! N.to_nat i = Some kQueryPendingOnGpu)
        by (apply Hall; left).
      assert (Hone : exists p1, reset_one d rollback_only i p = Ok p1).
      { destruct rollback_only.
        - eexists. apply reset_one_Ok. exists slots, free_slots.
          split; [exact Hs|]. split; [exact Hf|].
          split; [apply lookup_lt_Some in Hst; lia|]. split; [exact Hst|].
          reflexivity.
        - destruct (Hqp eq_refl) as [qp Hq]. eexists. apply reset_one_Ok.
          exists slots, free_slots.
          split; [exact Hs|]. split; [exact Hf|].
          split; [apply lookup_lt_Some in Hst; lia|]. split; [exact Hst|].
          exists qp. split; [exact Hq|reflexivity]. }
      destruct Hone as [p1 Hone]. rewrite Hone. simpl.
      destruct (Hstep p1 Hone) as (_ & Hs1 & Hf1 & Hn1 & Hq1).
      apply (IH p1 _ _ Hs1 Hf1).
      * rewrite length_insert, Hn1. exact Hlen.
      * rewrite Hq1. exact Hqp.
      * split; [exact Hnd|]. intros s Hin.
        rewrite list_lookup_insert_ne; [apply Hall; right; exact Hin|].
        intros Heq. apply Hnotin. apply N2Nat.inj in Heq. subst. exact Hin.
Qed.

(** X7. What a release accepts. On an initialised device (whose query pool
    is known), ResetQuerySlots and RollbackPendingQuerySlots return exactly
    when the slots they are given are pairwise distinct and all pending; a
    slot given twice, a ready slot or a slot outside [0, N) makes the call
    fail one of its checks. *)
Theorem release_returns_iff_distinct_pending
    (p : t) (d : VkDevice) (slots : list SlotState) (slot_indices : list N)
    (rollback_only : bool) :
  pool_inv p d ->
  device_to_query_slots_ p !! d = Some slots ->
  is_Some (device_to_query_pool_ p !! d) ->
  (exists p', ResetQuerySlotsInternal d slot_indices rollback_only p = Ok p') <->
  NoDup slot_indices /\
  forall s, s ∈ slot_indices ->
            s < num_timer_query_slots_ p /\
            slots !! N.to_nat s = Some kQueryPendingOnGpu.
Proof.
  intros (slots0 & free_slots & Hs0 & Hf & Hinv) Hs Hqp.
  assert (slots0 = slots) as -> by congruence.
  pose proof (inv_length _ _ _ Hinv) as Hlen.
  pose proof (reset_loop_returns_iff d rollback_only slot_indices p slots
                free_slots Hs Hf Hlen (fun _ => Hqp)) as Hloop.
  assert (Hrange : (forall s, s ∈ slot_indices ->
                      slots !! N.to_nat s = Some kQueryPendingOnGpu) <->
                   (forall s, s ∈ slot_indices ->
                      s < num_timer_query_slots_ p /\
                      slots !! N.to_nat s = Some kQueryPendingOnGpu)).
  { split; intros Hall s Hin; [|apply (Hall s Hin)].
    split; [|apply (Hall s Hin)].
    specialize (Hall s Hin). apply lookup_lt_Some in Hall. lia. }
  rewrite <- Hrange, <- Hloop. unfold ResetQuerySlotsInternal.
  destruct slot_indices as [|i rest]; [simpl; split; eauto|].
  rewrite (contains_Some _ _ _ Hs).
  rewrite (proj2 (map_at_Ok _ _ _) Hs), (proj2 (map_at_Ok _ _ _) Hf).
  reflexivity.
Qed.

(** X8. The devices of a pool are independent: acquiring or releasing slots
    of device [d] leaves the query pool handle, the slot states and the free
    list of every other device as they were. *)
Theorem pool_operations_leave_other_devices (p : t) (d d' : VkDevice) :
  d <> d' ->
  (forall r p',
      NextReadyQuerySlot d p = Ok (r, p') ->
      device_to_query_pool_ p' !! d' = device_to_query_pool_ p !! d' /\
      device_to_query_slots_ p' !! d' = device_to_query_slots_ p !! d' /\
      device_to_free_slots_ p' !! d' = device_to_free_slots_ p !! d') /\
  (forall slot_indices rollback_only p',
      ResetQuerySlotsInternal d slot_indices rollback_only p = Ok p' ->
      device_to_query_pool_ p' !! d' = device_to_query_pool_ p !! d' /\
      device_to_query_slots_ p' !! d' = device_to_query_slots_ p !! d' /\
      device_to_free_slots_ p' !! d' = device_to_free_slots_ p !! d').
Proof.
  intros Hne. split.
  - intros [s|] p' Hrun.
    + apply NextReadyQuerySlot_Some in Hrun as (slots & init & _ & _ & _ & ->).
      simpl. rewrite !lookup_insert_ne by exact Hne. auto.
    + apply NextReadyQuerySlot_None in Hrun as (-> & _). auto.
  - intros slot_indices rollback_only p' Hrun.
    assert (Hloop : forall q q',
               reset_loop d rollback_only slot_indices q = Ok q' ->
               device_to_query_pool_ q' !! d' = device_to_query_pool_ q !! d' /\
               device_to_query_slots_ q' !! d' = device_to_query_slots_ q !! d' /\
               device_to_free_slots_ q' !! d' = device_to_free_slots_ q !! d').
    { clear Hrun.
      induction slot_indices as [|i rest IH]; intros q q' Hq; simpl in Hq.
      - injection Hq as <-. auto.
      - inv_Ok Hq. destruct (IH _ _ Hq) as (-> & -> & ->).
        match goal with
        | H : reset_one _ _ _ _ = Ok _ |- _ =>
            apply reset_one_Ok in H as (slots & free_slots & _ & _ & _ & _ & Hq1)
        end.
        destruct rollback_only; simpl in Hq1.
        + subst. simpl. rewrite !lookup_insert_ne by exact Hne. auto.
        + destruct Hq1 as (qp & _ & ->). simpl.
          rewrite !lookup_insert_ne by exact Hne. auto. }
    unfold ResetQuerySlotsInternal in Hrun. destruct slot_indices as [|i rest].
    + injection Hrun as <-. auto.
    + inv_Ok Hrun. apply (Hloop _ _ Hrun).
Qed.

(** X9. DestroyTimerQueryPool of a device that has a query pool returns,
    hands that pool to the driver's vkDestroyQueryPool, and forgets the
    device: GetQueryPool, NextReadyQuerySlot and a second destroy of that
    device then fail their checks. Pending slots do not prevent it, and the
    other devices are untouched. *)
Theorem DestroyTimerQueryPool_forgets_device
    (p : t) (device : VkDevice) (query_pool : VkQueryPool) :
  device_to_query_pool_ p !! device = Some query_pool ->
  exists p',
    DestroyTimerQueryPool device p = Ok p' /\
    driver_calls p' = driver_calls p ++ [DestroyQueryPool device query_pool] /\
    GetQueryPool device p' = Fail CheckFailed /\
    NextReadyQuerySlot device p' = Fail CheckFailed /\
    DestroyTimerQueryPool device p' = Fail CheckFailed /\
    forall d', d' <> device ->
      device_to_query_pool_ p' !! d' = device_to_query_pool_ p !! d' /\
      device_to_query_slots_ p' !! d' = device_to_query_slots_ p !! d' /\
      device_to_free_slots_ p' !! d' = device_to_free_slots_ p !! d'.
Proof.
  intros Hqp. unfold DestroyTimerQueryPool at 1.
  rewrite (contains_Some _ _ _ Hqp), (proj2 (map_at_Ok _ _ _) Hqp).
  cbn [CHECK mbind result_bind]. eexists. split; [reflexivity|].
  split; [reflexivity|].
  assert (Hgone : forall V (m : gmap N V), contains (delete device m) device = false).
  { intros V m. apply contains_false, lookup_delete_eq. }
  unfold GetQueryPool, NextReadyQuerySlot, DestroyTimerQueryPool. simpl.
  rewrite !Hgone. simpl. repeat split; try reflexivity;
    apply lookup_delete_ne; congruence.
Qed.

(** X10. Initialising and then destroying a device is a round trip on the
    bookkeeping of the pool: if the device was unknown before, the three
    maps are afterwards what they were (the driver has seen the create, the
    reset and the destroy). *)
Theorem initialize_then_destroy_restores_bookkeeping
    (p p1 : t) (device : VkDevice) (created : VkResult * VkQueryPool) :
  device_to_query_slots_ p !! device = None ->
  device_to_free_slots_ p !! device = None ->
  InitializeTimerQueryPool device created p = Ok p1 ->
  exists p2,
    DestroyTimerQueryPool device p1 = Ok p2 /\
    same_bookkeeping p2 p /\
    driver_calls p2 =
    driver_calls p ++
      [CreateQueryPool device (num_timer_query_slots_ p);
       ResetQueryPoolEXT device created.2 0 (num_timer_query_slots_ p);
       DestroyQueryPool device created.2].
Proof.
  destruct created as [res query_pool]. intros Hs Hf Hinit.
  unfold InitializeTimerQueryPool in Hinit. inv_Ok Hinit. injection Hinit as <-.
  simpl in *.
  match goal with
  | H : negb (contains (device_to_query_pool_ p) device) = true |- _ =>
      apply negb_true_iff, contains_false in H; rename H into Hq
  end.
  unfold DestroyTimerQueryPool. simpl.
  rewrite (contains_Some _ _ query_pool) by apply lookup_insert_eq.
  unfold map_at. rewrite lookup_insert_eq. simpl.
  eexists. split; [reflexivity|]. unfold same_bookkeeping. simpl.
  rewrite !delete_insert_id by assumption.
  repeat split. rewrite <- !app_assoc. reflexivity.
Qed.

End PoolLaws.

(** ** The slot pool on the small installation *)

Lemma acquire_times_inv (n : nat) (d : VkDevice) (p : TimerQueryPool.t) :
  TimerQueryPool.pool_inv p d -> TimerQueryPool.pool_inv (acquire_times n d p) d.
Proof.
  revert p. induction n as [|n IH]; intros p Hinv; simpl; [exact Hinv|].
  destruct (TimerQueryPool.NextReadyQuerySlot d p) as [[r p']|] eqn:Hrun;
    [|exact Hinv].
  apply IH. eapply NextReadyQuerySlot_inv; eassumption.
Qed.

Lemma InitializeTimerQueryPool_makes_all_slots_ready_witness :
  exists p',
    TimerQueryPool.InitializeTimerQueryPool the_device (VK_SUCCESS, the_query_pool)
      (TimerQueryPool.new 4) = Ok p' /\
    TimerQueryPool.device_to_free_slots_ p' !! the_device = Some [0; 1; 2; 3] /\
    exists p'', TimerQueryPool.NextReadyQuerySlot the_device p' = Ok (Some 3, p'').
Proof.
  destruct (InitializeTimerQueryPool_makes_all_slots_ready the_device
              the_query_pool (TimerQueryPool.new 4))
    as (p' & Hinit & _ & _ & Hfree & _ & _ & Hfirst).
  - reflexivity.
  - exists p'. split; [exact Hinit|]. split; [exact Hfree|].
    apply Hfirst. reflexivity.
Defined.

Lemma InitializeTimerQueryPool_twice_fails_witness :
  TimerQueryPool.InitializeTimerQueryPool the_device (VK_SUCCESS, 10) fresh_pool
  = Fail CheckFailed.
Proof.
  apply (InitializeTimerQueryPool_twice_fails the_device
           (VK_SUCCESS, the_query_pool) (VK_SUCCESS, 10)
           (TimerQueryPool.new 4) fresh_pool).
  vm_compute. reflexivity.
Defined.

Lemma acquire_then_rollback_restores_pool_witness :
  exists p',
    TimerQueryPool.NextReadyQuerySlot the_device fresh_pool = Ok (Some 3, p') /\
    TimerQueryPool.RollbackPendingQuerySlots the_device [3] p' = Ok fresh_pool.
Proof.
  eexists. split; [vm_compute; reflexivity|].
  apply (acquire_then_rollback_restores_pool fresh_pool _ the_device 3
           fresh_pool_inv).
  vm_compute. reflexivity.
Defined.

Lemma last_released_slot_is_acquired_next_witness :
  exists p' p'',
    TimerQueryPool.ResetQuerySlots the_device [2; 3]
      (acquire_times 2 the_device fresh_pool) = Ok p' /\
    TimerQueryPool.NextReadyQuerySlot the_device p' = Ok (Some 3, p'').
Proof.
  assert (exists p', TimerQueryPool.ResetQuerySlotsInternal the_device ([2] ++ [3])
                       false (acquire_times 2 the_device fresh_pool) = Ok p')
    as [p' Hrelease] by (eexists; vm_compute; reflexivity).
  destruct (last_released_slot_is_acquired_next _ _ _ _ _ _ Hrelease)
    as [p'' Hnext].
  exists p', p''. split; [exact Hrelease|exact Hnext].
Defined.

Lemma NextReadyQuerySlot_none_iff_exhausted_witness :
  TimerQueryPool.NextReadyQuerySlot the_device (acquire_times 4 the_device fresh_pool)
  = Ok (None, acquire_times 4 the_device fresh_pool).
Proof.
  apply (proj2 (NextReadyQuerySlot_none_iff_exhausted
                  (acquire_times 4 the_device fresh_pool) the_device
                  (replicate 4 TimerQueryPool.kQueryPendingOnGpu)
                  (acquire_times_inv 4 the_device fresh_pool fresh_pool_inv)
                  ltac:(vm_compute; reflexivity))).
  vm_compute. reflexivity.
Defined.


Lemma release_returns_iff_distinct_pending_witness :
  ~ exists p',
      TimerQueryPool.RollbackPendingQuerySlots the_device [3; 3]
        (acquire_times 1 the_device fresh_pool) = Ok p'.
Proof.
  intros Hreturns.
  destruct (proj1 (release_returns_iff_distinct_pending
                     (acquire_times 1 the_device fresh_pool) the_device
                     [TimerQueryPool.kReadyForQueryIssue;
                      TimerQueryPool.kReadyForQueryIssue;
                      TimerQueryPool.kReadyForQueryIssue;
                      TimerQueryPool.kQueryPendingOnGpu]
                     [3; 3] true
                     (acquire_times_inv 1 the_device fresh_pool fresh_pool_inv)
                     ltac:(vm_compute; reflexivity)
                     ltac:(vm_compute; eauto))
                  Hreturns) as [Hnodup _].
  apply NoDup_cons in Hnodup as [Hnotin _]. apply Hnotin. left.
Defined.

Lemma pool_operations_leave_other_devices_witness :
  exists p',
    TimerQueryPool.NextReadyQuerySlot the_device fresh_pool = Ok (Some 3, p') /\
    TimerQueryPool.device_to_query_slots_ p' !! 8
    = TimerQueryPool.device_to_query_slots_ fresh_pool !! 8.
Proof.
  eexists. split; [vm_compute; reflexivity|].
  refine (proj1 (proj2 (proj1 (pool_operations_leave_other_devices fresh_pool
                                 the_device 8 _) (Some 3) _ _))).
  - discriminate.
  - vm_compute. reflexivity.
Defined.

Lemma DestroyTimerQueryPool_forgets_device_witness :
  exists p',
    TimerQueryPool.DestroyTimerQueryPool the_device
      (acquire_times 2 the_device fresh_pool) = Ok p' /\
    TimerQueryPool.GetQueryPool the_device p' = Fail CheckFailed /\
    TimerQueryPool.NextReadyQuerySlot the_device p' = Fail CheckFailed.
Proof.
  destruct (DestroyTimerQueryPool_forgets_device
              (acquire_times 2 the_device fresh_pool) the_device the_query_pool)
    as (p' & Hdestroy & _ & Hget & Hnext & _).
  - vm_compute. reflexivity.
  - exists p'. auto.
Defined.

Lemma initialize_then_destroy_restores_bookkeeping_witness :
  exists p2,
    TimerQueryPool.DestroyTimerQueryPool the_device fresh_pool = Ok p2 /\
    same_bookkeeping p2 (TimerQueryPool.new 4).
Proof.
  destruct (initialize_then_destroy_restores_bookkeeping (TimerQueryPool.new 4)
              fresh_pool the_device (VK_SUCCESS, the_query_pool))
    as (p2 & Hdestroy & Hsame & _).
  - reflexivity.
  - reflexivity.
  - vm_compute. reflexivity.
  - exists p2. auto.
Defined.


(** * Further properties of the submission tracker *)

(** ** Tracking and untracking *)

Lemma track_loop_spec (device : VkDevice) (command_buffers : list N)
    (associated : gset N) (devices : gmap N N) :
  (@track_loop device command_buffers associated devices).1
  = list_to_set command_buffers ∪ associated /\
  forall cb,
    (@track_loop device command_buffers associated devices).2 !! cb
    = if bool_decide (cb ∈ command_buffers) then Some device else devices !! cb.
Proof.
  revert associated devices.
  induction command_buffers as [|c rest IH]; intros associated devices; simpl.
  - split; [set_solver|]. intros cb. reflexivity.
  - destruct (IH ({[c]} ∪ associated) (<[c := device]> devices)) as [-> Hdev].
    split; [set_solver|]. intros cb. rewrite Hdev.
    destruct (decide (cb = c)) as [->|Hne].
    + rewrite lookup_insert_eq.
      rewrite (bool_decide_eq_true_2 (c ∈ c :: rest)) by left.
      destruct (bool_decide (c ∈ rest)); reflexivity.
    + rewrite lookup_insert_ne by congruence.
      rewrite (bool_decide_ext (cb ∈ c :: rest) (cb ∈ rest)); [reflexivity|].
      rewrite elem_of_cons. tauto.
Qed.

Lemma untrack_loop_spec (device : VkDevice) (command_buffers : list N) :
  forall (associated : gset N) (devices : gmap N N),
    (exists r, @untrack_loop device command_buffers associated devices = Ok r) <->
    NoDup command_buffers /\
    forall cb, cb ∈ command_buffers -> devices !! cb = Some device.
Proof.
  induction command_buffers as [|c rest IH]; intros associated devices; simpl.
  - split; [|eauto]. intros _. split; [constructor|]. intros cb Hcb. inversion Hcb.
  - split.
    + intros [r Hrun]. inv_Ok Hrun. apply bool_decide_eq_true in Ha1. subst.
      destruct (proj1 (IH _ _) (ex_intro _ r Hrun)) as [Hnd Hall].
      assert (Hnotin : c ∉ rest).
      { intros Hin. specialize (Hall c Hin). rewrite lookup_delete_eq in Hall.
        discriminate. }
      split; [constructor; assumption|].
      intros cb Hcb. apply elem_of_cons in Hcb as [->|Hcb]; [assumption|].
      specialize (Hall cb Hcb).
      apply lookup_delete_Some in Hall. tauto.
    + intros [Hnd Hall]. apply NoDup_cons in Hnd as [Hnotin Hnd].
      assert (Hc : devices !! c = Some device) by (apply Hall; left).
      rewrite (contains_Some _ _ _ Hc). simpl. unfold map_at. rewrite Hc. simpl.
      rewrite bool_decide_eq_true_2 by reflexivity. simpl.
      apply IH. split; [exact Hnd|]. intros cb Hcb.
      rewrite lookup_delete_ne; [apply Hall; right; exact Hcb|].
      intros ->. contradiction.
Qed.

Lemma untrack_loop_result (device : VkDevice) (command_buffers : list N) :
  forall (associated associated' : gset N) (devices devices' : gmap N N),
    @untrack_loop device command_buffers associated devices
    = Ok (associated', devices') ->
    associated' = associated ∖ list_to_set command_buffers /\
    forall cb,
      devices' !! cb
      = if bool_decide (cb ∈ command_buffers) then None else devices !! cb.
Proof.
  induction command_buffers as [|c rest IH];
    intros associated associated' devices devices' Hrun; simpl in Hrun.
  - injection Hrun as <- <-. split; [set_solver|]. intros cb. reflexivity.
  - inv_Ok Hrun. destruct (IH _ _ _ _ Hrun) as [-> Hdev].
    split; [set_solver|]. intros cb. rewrite Hdev.
    destruct (decide (cb = c)) as [->|Hne].
    + rewrite lookup_delete_eq.
      rewrite (bool_decide_eq_true_2 (c ∈ c :: rest)) by left.
      destruct (bool_decide (c ∈ rest)); reflexivity.
    + rewrite lookup_delete_ne by congruence.
      rewrite (bool_decide_ext (cb ∈ c :: rest) (cb ∈ rest)); [reflexivity|].
      rewrite elem_of_cons. tauto.
Qed.

(** X11. What UntrackCommandBuffers accepts and does. It returns exactly
    when the pool is known, the buffers are pairwise distinct and each of
    them is registered with the given device (it does not check that they
    belong to the given pool); a buffer that is not tracked, tracked under
    another device, or listed twice is fatal. When it returns, none of the
    buffers is registered any more and every other registration is kept. *)
Theorem UntrackCommandBuffers_returns_iff
    {D P : Type} (t : SubmissionTracker D P) (device : VkDevice)
    (pool : VkCommandPool) (command_buffers : list N) :
  ((exists t', UntrackCommandBuffers device pool command_buffers t = Ok t') <->
   is_Some (pool_to_command_buffers_ t !! pool) /\
   NoDup command_buffers /\
   forall cb, cb ∈ command_buffers ->
              command_buffer_to_device_ t !! cb = Some device) /\
  (forall t',
      UntrackCommandBuffers device pool command_buffers t = Ok t' ->
      forall cb,
        command_buffer_to_device_ t' !! cb
        = if bool_decide (cb ∈ command_buffers) then None
          else command_buffer_to_device_ t !! cb).
Proof.
  unfold UntrackCommandBuffers. split.
  - split.
    + intros [t' Hrun]. inv_Ok Hrun. destruct a1 as [associated' devices'].
      split; [eauto|]. apply (untrack_loop_spec device command_buffers a0
                                (command_buffer_to_device_ t)). eauto.
    + intros ([associated Hpool] & Hrest).
      rewrite (contains_Some _ _ _ Hpool). simpl. unfold map_at. rewrite Hpool.
      simpl.
      destruct (proj2 (untrack_loop_spec device command_buffers associated
                         (command_buffer_to_device_ t)) Hrest)
        as [[associated' devices'] Hloop].
      rewrite Hloop. simpl. eauto.
  - intros t' Hrun. inv_Ok Hrun. destruct a1 as [associated' devices'].
    injection Hrun as <-. simpl.
    match goal with
    | H : untrack_loop _ _ _ _ = Ok _ |- _ =>
        apply untrack_loop_result in H as [_ Hdev]
    end.
    exact Hdev.
Qed.

(** X12. Tracking fresh command buffers and untracking them again is a round
    trip: for pairwise distinct buffers that are not registered, and that are
    not in the set of the pool (a pool that is unknown, or known with a
    non-empty set), TrackCommandBuffers followed by UntrackCommandBuffers
    with the same arguments returns the tracker as it was. *)
Theorem track_then_untrack_restores_tracker
    {D P : Type} (t : SubmissionTracker D P) (device : VkDevice)
    (pool : VkCommandPool) (command_buffers : list N) :
  NoDup command_buffers ->
  (forall cb, cb ∈ command_buffers -> command_buffer_to_device_ t !! cb = None) ->
  match pool_to_command_buffers_ t !! pool with
  | None => True
  | Some associated =>
      associated <> ∅ /\ forall cb, cb ∈ command_buffers -> cb ∉ associated
  end ->
  exists t1,
    TrackCommandBuffers device pool command_buffers t = Ok t1 /\
    UntrackCommandBuffers device pool command_buffers t1 = Ok t.
Proof.
  intros Hnd Hfresh Hpool.
  unfold TrackCommandBuffers.
  set (pools := if contains (pool_to_command_buffers_ t) pool
                then pool_to_command_buffers_ t
                else <[pool := ∅]> (pool_to_command_buffers_ t)).
  set (associated := default ∅ (pool_to_command_buffers_ t !! pool)).
  assert (Hlook : pools !! pool = Some associated).
  { unfold pools, associated.
    destruct (pool_to_command_buffers_ t !! pool) as [a|] eqn:Hp.
    - rewrite (contains_Some _ _ _ Hp). exact Hp.
    - rewrite (proj2 (contains_false _ _) Hp). apply lookup_insert_eq. }
  rewrite (proj2 (map_at_Ok _ _ _) Hlook). cbn [mbind result_bind].
  destruct (track_loop_spec device command_buffers associated
              (command_buffer_to_device_ t)) as [Hset Hdev].
  destruct (track_loop device command_buffers associated
              (command_buffer_to_device_ t)) as [associated1 devices1].
  simpl in Hset, Hdev. subst associated1.
  eexists. split; [reflexivity|].
  unfold UntrackCommandBuffers. simpl.
  rewrite (contains_Some _ _ (list_to_set command_buffers ∪ associated))
    by apply lookup_insert_eq.
  unfold map_at. rewrite lookup_insert_eq. simpl.
  destruct (proj2 (untrack_loop_spec device command_buffers
                     (list_to_set command_buffers ∪ associated) devices1))
    as [[associated2 devices2] Hloop].
  { split; [exact Hnd|]. intros cb Hcb. rewrite Hdev.
    rewrite bool_decide_eq_true_2 by exact Hcb. reflexivity. }
  rewrite Hloop. simpl.
  apply untrack_loop_result in Hloop as [-> Hdev2].
  assert (Hdevices : devices2 = command_buffer_to_device_ t).
  { apply map_eq. intros cb. rewrite Hdev2, Hdev.
    case_bool_decide as Hin; [symmetry; apply Hfresh; exact Hin|reflexivity]. }
  assert (Hdisjoint : (list_to_set command_buffers ∪ associated)
                        ∖ list_to_set command_buffers = associated).
  { unfold associated.
    destruct (pool_to_command_buffers_ t !! pool) as [a|]; simpl.
    - destruct Hpool as [_ Hnotin]. apply set_eq. intros x.
      rewrite elem_of_difference, elem_of_union, elem_of_list_to_set.
      split; [tauto|]. intros Hx. split; [tauto|].
      intros Hin. exact (Hnotin x Hin Hx).
    - set_solver. }
  rewrite Hdisjoint, Hdevices. f_equal.
  assert (Hpools :
    (if bool_decide (associated = ∅)
     then delete pool
            (<[pool := list_to_set command_buffers ∪ associated]> pools)
     else <[pool := associated]>
            (<[pool := list_to_set command_buffers ∪ associated]> pools))
    = pool_to_command_buffers_ t).
  { unfold pools, associated.
    destruct (pool_to_command_buffers_ t !! pool) as [a|] eqn:Hp; simpl.
    - destruct Hpool as [Hne _].
      rewrite (contains_Some _ _ _ Hp), (bool_decide_eq_false_2 _ Hne).
      rewrite insert_insert_eq. apply insert_id. exact Hp.
    - rewrite (proj2 (contains_false _ _) Hp).
      rewrite bool_decide_eq_true_2 by reflexivity.
      rewrite insert_insert_eq. apply delete_insert_id. exact Hp. }
  unfold set_devices, set_pools. simpl. rewrite Hpools.
  destruct t. reflexivity.
Qed.

Lemma UntrackCommandBuffers_returns_iff_witness :
  let t := tracker_after (fresh_tracker 0)
             (TrackCommandBuffers the_device the_command_pool [1; 2]
                (fresh_tracker 0)) in
  (exists t', UntrackCommandBuffers the_device the_command_pool [1] t = Ok t') /\
  ~ (exists t', UntrackCommandBuffers the_device the_command_pool [1; 1] t = Ok t') /\
  ~ (exists t', UntrackCommandBuffers 8 the_command_pool [1] t = Ok t').
Proof.
  intros t. split; [|split].
  - apply (proj1 (UntrackCommandBuffers_returns_iff t the_device
                    the_command_pool [1])).
    split; [vm_compute; eauto|].
    split; [apply (bool_decide_unpack (NoDup [1])); vm_compute; exact I|].
    intros cb Hcb. apply list_elem_of_singleton in Hcb as ->.
    vm_compute. reflexivity.
  - intros Hrun.
    apply (proj1 (UntrackCommandBuffers_returns_iff t the_device
                    the_command_pool [1; 1])) in Hrun as (_ & Hnd & _).
    apply NoDup_cons in Hnd as [Hnotin _]. apply Hnotin. left.
  - intros Hrun.
    apply (proj1 (UntrackCommandBuffers_returns_iff t 8
                    the_command_pool [1])) in Hrun as (_ & _ & Hdev).
    specialize (Hdev 1 ltac:(left)). vm_compute in Hdev. discriminate.
Defined.

Lemma track_then_untrack_restores_tracker_witness :
  exists t1,
    TrackCommandBuffers the_device the_command_pool [1; 2] (fresh_tracker 0)
    = Ok t1 /\
    command_buffer_to_device_ t1 !! 2 = Some the_device /\
    UntrackCommandBuffers the_device the_command_pool [1; 2] t1
    = Ok (fresh_tracker 0).
Proof.
  destruct (track_then_untrack_restores_tracker (fresh_tracker 0) the_device
              the_command_pool [1; 2]) as (t1 & Htrack & Huntrack).
  - apply (bool_decide_unpack (NoDup [1; 2])). vm_compute. exact I.
  - intros cb _. reflexivity.
  - vm_compute. exact I.
  - exists t1. split; [exact Htrack|]. split; [|exact Huntrack].
    vm_compute in Htrack. injection Htrack as <-. vm_compute. reflexivity.
Defined.
